(** * urlstat: the request tracer of package [stat]

    A shallow embedding of [Request.visit], [Request.cook], [createBody]
    and [Response.report] (Go), together with the properties of the traced
    report: its layout, the phase durations, the redirect budget and what
    is left in the log when the trace aborts.

    Conventions.
    - Go's [int] and [time.Duration] are 64-bit: they are integers in [Z]
      with the wrap-around (resp. the saturation of [Time.Sub]) written out.
    - A [time.Time] is the number of nanoseconds since the zero [Time];
      [time.Now()] never returns the zero [Time].
    - [*Response] is a heap object shared by the whole redirect chain and
      the network is an oracle indexed by the number of round trips made so
      far: both are threaded through a state monad whose results can be a
      panic.  A panic keeps the state, as Go's heap does.
    - The collaborators that live outside the two source files (helpers of
      the package that are not shown, the Go library, the network) are the
      fields of the class [Platform]. *)

From Stdlib Require Import ZArith Lia Ascii String.
From stdpp Require Import base list strings gmap fin_maps pretty sorting.

Local Open Scope Z_scope.

(** ** Go strings *)

Definition nl : string := String "010"%char "".
Definition colon : ascii := ":"%char.
Definition lbrack : ascii := "["%char.
Definition rbrack : ascii := "]"%char.

Module strings.

(** [strings.Join(elems, sep)] *)
Fixpoint Join (elems : list string) (sep : string) : string :=
  match elems with
  | [] => ""
  | [e] => e
  | e :: rest => e +:+ sep +:+ Join rest sep
  end.

(** [strings.Split(s, "\n")]: the lines of a rendered text. *)
Fixpoint splitLines (cur : string) (s : string) : list string :=
  match s with
  | EmptyString => [String.rev cur]
  | String c s' =>
      if Ascii.eqb c "010"%char then String.rev cur :: splitLines "" s'
      else splitLines (String c cur) s'
  end.
Definition Lines (s : string) : list string := splitLines "" s.

(** [IndexByteString(s, c)]: index of the first [c] in [s], or -1. *)
Fixpoint indexFrom (c : ascii) (s : string) (i : Z) : Z :=
  match s with
  | EmptyString => -1
  | String a s' => if Ascii.eqb a c then i else indexFrom c s' (i + 1)
  end.
Definition IndexByteString (s : string) (c : ascii) : Z := indexFrom c s 0.

(** [LastIndexByteString(s, c)]: index of the last [c] in [s], or -1. *)
Fixpoint lastIndexFrom (c : ascii) (s : string) (i acc : Z) : Z :=
  match s with
  | EmptyString => acc
  | String a s' => lastIndexFrom c s' (i + 1) (if Ascii.eqb a c then i else acc)
  end.
Definition LastIndexByteString (s : string) (c : ascii) : Z :=
  lastIndexFrom c s 0 (-1).

Definition len (s : string) : Z := Z.of_nat (String.length s).

(** [s[i:j]], [s[:j]] and [s[i:]] for indices within bounds. *)
Definition slice (s : string) (i j : Z) : string :=
  substring (Z.to_nat i) (Z.to_nat (j - i)) s.
Definition upto (s : string) (j : Z) : string := slice s 0 j.
Definition from (s : string) (i : Z) : string := slice s i (len s).

(** [s[i]] *)
Definition at_ (s : string) (i : Z) : option ascii := String.get (Z.to_nat i) s.

(** [strings.TrimSuffix(s, ":")] *)
Fixpoint trimColonSuffix (s : string) : string :=
  match s with
  | EmptyString => EmptyString
  | String c EmptyString => if Ascii.eqb c colon then EmptyString else s
  | String c s' => String c (trimColonSuffix s')
  end.

End strings.

(** ** Go's [int] *)

Module int.
Definition min : Z := - 2 ^ 63.
Definition max : Z := 2 ^ 63 - 1.
(** two's-complement wrap-around of a 64-bit signed integer *)
Definition wrap (x : Z) : Z := (x + 2 ^ 63) mod 2 ^ 64 - 2 ^ 63.
(** [x++] *)
Definition incr (x : Z) : Z := wrap (x + 1).
End int.

(** ** Package [time] *)

Module time.
Definition Time := Z.
Definition Duration := Z.

Definition IsZero (t : Time) : bool := t =? 0.

Definition minDuration : Duration := - 2 ^ 63.
Definition maxDuration : Duration := 2 ^ 63 - 1.

(** [t.Sub(u)]: the duration [t - u], saturated to the range of
    [Duration] when it does not fit. *)
Definition Sub (t u : Time) : Duration :=
  Z.max minDuration (Z.min maxDuration (t - u)).

Definition Millisecond : Duration := 1000000.
Definition Second : Duration := 1000 * Millisecond.
End time.

(** ** Package [net]: [SplitHostPort] *)

Module net.
Import strings.

(** [SplitHostPort(hostport)]: [Some (host, port)], or [None] for the
    error results (missing port, too many colons, misplaced brackets). *)
Definition SplitHostPort (hostport : string) : option (string * string) :=
  let i := LastIndexByteString hostport colon in
  if i <? 0 then None
  else
    let checked (host : string) (j k : Z) : option (string * string) :=
      if 0 <=? IndexByteString (from hostport j) lbrack then None
      else if 0 <=? IndexByteString (from hostport k) rbrack then None
      else Some (host, from hostport (i + 1)) in
    if bool_decide (at_ hostport 0 = Some lbrack) then
      let end_ := IndexByteString hostport rbrack in
      if end_ <? 0 then None
      else if end_ + 1 =? len hostport then None
      else if end_ + 1 =? i then checked (slice hostport 1 end_) 1 (end_ + 1)
      else None
    else
      let host := upto hostport i in
      if 0 <=? IndexByteString host colon then None
      else checked host 0 0.
End net.

(** ** Packages [net/url], [io], [crypto/tls], [net/http], [httptrace] *)

Module url.
Record URL := mkURL { Scheme : string; Host : string; Path : string }.
End url.

Module io.
(** An [io.Reader] value: the nil interface or a [*strings.Reader]. *)
Inductive Reader := NilReader | StringsReader (s : string).
End io.

Module tls.
Definition Certificate := string.
Record Config := mkConfig {
  ServerName : string;
  InsecureSkipVerify : bool;
  Certificates : list Certificate }.
End tls.

Module http.

Record Request := mkRequest {
  Method : string;
  URL : url.URL;
  Host : string;
  Header : gmap string (list string);
  Body : io.Reader }.

Definition setHost (v : string) (req : Request) : Request :=
  mkRequest (Method req) (URL req) v (Header req) (Body req).
Definition setHeader (h : gmap string (list string)) (req : Request) : Request :=
  mkRequest (Method req) (URL req) (Host req) h (Body req).

Record Response := mkResponse {
  ProtoMajor : Z;
  ProtoMinor : Z;
  Status : string;
  StatusCode : Z;
  RespHeader : gmap string (list string) }.

Record Transport := mkTransport {
  MaxIdleConns : Z;
  IdleConnTimeout : time.Duration;
  TLSHandshakeTimeout : time.Duration;
  ExpectContinueTimeout : time.Duration;
  TLSClientConfig : option tls.Config }.

(** [removeEmptyPort]: ["host:"] becomes ["host"]. *)
Definition removeEmptyPort (host : string) : string := strings.trimColonSuffix host.

(** The result of [resp.Location()]. *)
Inductive LocationResult :=
| ErrNoLocation
| LocationError (err : string)
| Location (u : url.URL).

End http.

Module httptrace.
(** One call of a [ClientTrace] hook by the transport; [now] is what
    [time.Now()] returns inside the hook. *)
Inductive Event :=
| DNSStart (now : time.Time)
| DNSDone (now : time.Time)
| ConnectStart (now : time.Time)
| ConnectDone (addr : string) (err : option string) (now : time.Time)
| GotConn (now : time.Time)
| GotFirstResponseByte (now : time.Time).
End httptrace.

(** What one [client.Do(req)] and the reading of the body bring back from
    the outside: the hooks called while the request is in flight, the
    result of [Do], and the instant [time.Now()] gives after the body has
    been read (line 118). *)
Record Exchange := mkExchange {
  events : list httptrace.Event;
  result : string + http.Response;
  bodyRead : time.Time }.

(** ** Package [stat]: the data *)

Record Request := mkRequest {
  URL : url.URL;
  HTTPHeaders : list string;
  HTTPMethod : string;
  PostBody : string;
  ClientCertFile : string;
  FollowRedirects : bool;
  OnlyHeader : bool;
  Insecure : bool;
  ShowVersion : bool;
  MaxRedirects : Z }.

(** [r.URL = loc] on the copy of the request that [visit] owns. *)
Definition setURL (loc : url.URL) (r : Request) : Request :=
  mkRequest loc (HTTPHeaders r) (HTTPMethod r) (PostBody r) (ClientCertFile r)
            (FollowRedirects r) (OnlyHeader r) (Insecure r) (ShowVersion r)
            (MaxRedirects r).

Record Response := mkResponse {
  Log : list string;
  redirectsFollowed : Z }.

(** [Response.String] *)
Definition Response_String (r : Response) : string := strings.Join (Log r) nl.

(** The five instants the hooks of [visit] write: [t0] DNS start, [t1] DNS
    done, [t2] connect done, [t3] got connection, [t4] first response
    byte.  They start as the zero [Time]. *)
Record Marks := mkMarks {
  t0 : time.Time; t1 : time.Time; t2 : time.Time; t3 : time.Time; t4 : time.Time }.

Definition zeroMarks : Marks := mkMarks 0 0 0 0 0.

(** ** Fatal errors *)

(** Modelled from the spec: [makePanic] is not shown; it aborts the whole
    trace with a human-readable message built from its format and
    arguments.  The panic value keeps which call site raised it. *)
Inductive Fatal :=
| UnableToConnect (addr err : string)          (* line 60 *)
| FailedToPrepareHTTP2 (err : string)          (* line 97 *)
| FailedToReadResponse (err : string)          (* line 112 *)
| UnableToFollowRedirect (err : string)        (* line 164 *)
| MaximumRedirects (limit : Z)                 (* line 169 *)
| UnableToCreateRequest (err : string)         (* line 184 *)
| HelperFatal (msg : string)                   (* raised inside a helper *).

(** Modelled from the spec: the message [makePanic] builds from the format
    and the arguments of each call site. *)
Definition message (f : Fatal) : string :=
  match f with
  | UnableToConnect addr err => "Unable to connect to host " +:+ addr +:+ ": " +:+ err
  | FailedToPrepareHTTP2 err => "Failed to prepare transport for HTTP/2: " +:+ err
  | FailedToReadResponse err => "Failed to read response: " +:+ err
  | UnableToFollowRedirect err => "Unable to follow redirect: " +:+ err
  | MaximumRedirects limit =>
      "Maximum number of redirects (" +:+ pretty limit +:+ ") followed"
  | UnableToCreateRequest err => "Unable to create request: " +:+ err
  | HelperFatal msg => msg
  end.

(** ** The collaborators *)

Class Platform := {
  (** helpers of package [stat] that are not shown *)
  parseURL : string → string + url.URL;
  headerKeyValue : string → string * string;
  readClientCert : string → string + list tls.Certificate;
  readResponseBody : http.Request → http.Response → string;
  isRedirect : http.Response → bool;
  (** the Go library *)
  EqualFold : string → string → bool;
  CanonicalMIMEHeaderKey : string → string;
  NewRequestError : string → url.URL → option string;
  ConfigureTransport : http.Transport → option string;
  Parse : url.URL → string → string + url.URL;
  (** the network: what the [n]-th round trip of the run brings back *)
  RoundTrip : nat → http.Transport → http.Request → Exchange }.

(** Lower case of the ASCII letters. *)
Definition lowerByte (c : ascii) : ascii :=
  let n := N_of_ascii c in
  if ((65 <=? n) && (n <=? 90))%N then ascii_of_N (n + 32) else c.

Fixpoint ToLower (s : string) : string :=
  match s with
  | EmptyString => EmptyString
  | String c s' => String (lowerByte c) (ToLower s')
  end.

(** Modelled from the spec: the methods [Len], [Swap] and [Less] of
    [Headers] are not shown; the header names are sorted
    case-insensitively, ties broken by the byte order of the original
    spelling. *)
Definition headersLeb (a b : string) : bool :=
  match String.compare (ToLower a) (ToLower b) with
  | Lt => true
  | Eq => String.leb a b
  | Gt => false
  end.

Definition headersLe (a b : string) : Prop := headersLeb a b = true.

#[export] Instance headersLe_dec : RelDecision headersLe :=
  λ a b, decide (headersLeb a b = true).

(** [sort.Sort(Headers(names))] *)
Definition sortHeaders (names : list string) : list string :=
  merge_sort headersLe names.

(** ** The state monad of a trace *)

Record State := mkState {
  w : Response;          (* the object behind the pointer [w *Response] *)
  roundTrips : nat       (* how many times [client.Do] was called *) }.

Inductive Result (A : Type) :=
| Done (a : A)
| Panicked (f : Fatal)
| OutOfFuel.
Arguments Done {A} a.
Arguments Panicked {A} f.
Arguments OutOfFuel {A}.

Definition M (A : Type) : Type := State → Result A * State.

#[export] Instance M_ret : MRet M := λ A a s, (Done a, s).

#[export] Instance M_bind : MBind M := λ A B k m s,
  match m s with
  | (Done a, s') => k a s'
  | (Panicked f, s') => (Panicked f, s')
  | (OutOfFuel, s') => (OutOfFuel, s')
  end.

(** Modelled from the spec: [makePanic] is not shown; it panics with the
    message of [f], and what the trace has written so far stays as it is
    (the web layer recovers the panic). *)
Definition makePanic {A} (f : Fatal) : M A := λ s, (Panicked f, s).

Definition outOfFuel {A} : M A := λ s, (OutOfFuel, s).

(** A library call that returns [(value, err)]. *)
Definition orPanic {A} (fatal : string → Fatal) (r : string + A) : M A :=
  match r with
  | inl err => makePanic (fatal err)
  | inr a => mret a
  end.

Fixpoint forEach {A} (f : A → M unit) (l : list A) : M unit :=
  match l with
  | [] => mret tt
  | x :: l' => f x ;; forEach f l'
  end.

Fixpoint foldM {A B} (f : B → A → M A) (l : list B) (a : A) : M A :=
  match l with
  | [] => mret a
  | x :: l' => a' ← f x a; foldM f l' a'
  end.

(** [Response.report]: [r.Log = append(r.Log, fmt.Sprintf(format, argv...))];
    [line] is the formatted text. *)
Definition report (line : string) : M unit := λ s,
  (Done tt, mkState (mkResponse (Log (w s) ++ [line]) (redirectsFollowed (w s)))
                    (roundTrips s)).

(** [w.redirectsFollowed++] *)
Definition incrRedirects : M unit := λ s,
  (Done tt, mkState (mkResponse (Log (w s)) (int.incr (redirectsFollowed (w s))))
                    (roundTrips s)).

Definition getRedirects : M Z := λ s, (Done (redirectsFollowed (w s)), s).

(** ** Package [stat]: the code *)

Section Stat.
Context `{Platform}.

(** [http.NewRequest(method, url, body)], for the [url.URL] that
    [r.URL.String()] spells: an empty method means GET, the validation of
    the method and of the URL text is [NewRequestError], and the new
    request has an empty header and the URL's host as [Host]. *)
Definition http_NewRequest (method : string) (u : url.URL) (body : io.Reader)
  : string + http.Request :=
  let method := if decide (method = "") then "GET" else method in
  match NewRequestError method u with
  | Some err => inl err
  | None => inr (http.mkRequest method u (http.removeEmptyPort (url.Host u)) ∅ body)
  end.

(** [h.Add(key, value)] of [http.Header] *)
Definition Header_Add (h : gmap string (list string)) (key value : string)
  : gmap string (list string) :=
  let k := CanonicalMIMEHeaderKey key in
  <[k := default [] (h !! k) ++ [value]]> h.

(** [h.Get(key)] of [http.Header] for a canonical [key] *)
Definition Header_Get (h : gmap string (list string)) (key : string) : string :=
  match h !! key with
  | Some (v :: _) => v
  | _ => ""
  end.

(** [resp.Location()], where [resp.Request] is [req] *)
Definition Response_Location (req : http.Request) (resp : http.Response)
  : http.LocationResult :=
  let lv := Header_Get (http.RespHeader resp) "Location" in
  if decide (lv = "") then http.ErrNoLocation
  else match Parse (http.URL req) lv with
       | inl err => http.LocationError err
       | inr u => http.Location u
       end.


(** [createBody] (lines 198-200) *)
Definition createBody (body : string) : io.Reader := io.StringsReader body.

(** The body of the loop of [cook] (lines 188-193) *)
Definition cookHeader (req : http.Request) (h : string) : http.Request :=
  let '(k, v) := headerKeyValue h in
  if EqualFold k "host" then http.setHost v req
  else http.setHeader (Header_Add (http.Header req) k v) req.

(** [Request.cook] (lines 178-196) *)
Definition cook (r : Request) : M http.Request :=
  req ← orPanic UnableToCreateRequest
          (http_NewRequest (HTTPMethod r) (URL r) (createBody (PostBody r)));
  mret (fold_left cookHeader (HTTPHeaders r) req).

(** The hooks of the [ClientTrace] (lines 49-68), run on one event. *)
Definition hook (e : httptrace.Event) (t : Marks) : M Marks :=
  match e with
  | httptrace.DNSStart now => mret (mkMarks now (t1 t) (t2 t) (t3 t) (t4 t))
  | httptrace.DNSDone now => mret (mkMarks (t0 t) now (t2 t) (t3 t) (t4 t))
  | httptrace.ConnectStart now =>
      if time.IsZero (t1 t)
      then mret (mkMarks (t0 t) now (t2 t) (t3 t) (t4 t))
      else mret t
  | httptrace.ConnectDone addr err now =>
      match err with
      | Some e => makePanic (UnableToConnect addr e)
      | None =>
          report ("Connected to " +:+ addr +:+ nl) ;;
          mret (mkMarks (t0 t) (t1 t) now (t3 t) (t4 t))
      end
  | httptrace.GotConn now => mret (mkMarks (t0 t) (t1 t) (t2 t) now (t4 t))
  | httptrace.GotFirstResponseByte now =>
      mret (mkMarks (t0 t) (t1 t) (t2 t) (t3 t) now)
  end.

(** Lines 82-85: the server name of the TLS configuration. *)
Definition serverName (reqHost : string) : string :=
  match net.SplitHostPort reqHost with
  | Some (host, _) => host
  | None => reqHost
  end.

(** Lines 72-99: the transport of one attempt. *)
Definition newTransport (r : Request) (req : http.Request) : M http.Transport :=
  let tr := http.mkTransport 100 (90 * time.Second) (10 * time.Second)
                             (1 * time.Second) None in
  if decide (url.Scheme (URL r) = "https") then
    let host := serverName (http.Host req) in
    certs ← orPanic HelperFatal (readClientCert (ClientCertFile r));
    let tr := http.mkTransport (http.MaxIdleConns tr) (http.IdleConnTimeout tr)
                (http.TLSHandshakeTimeout tr) (http.ExpectContinueTimeout tr)
                (Some (tls.mkConfig host (Insecure r) certs)) in
    match ConfigureTransport tr with
    | Some err => makePanic (FailedToPrepareHTTP2 err)
    | None => mret tr
    end
  else mret tr.

(** [client.Do(req)] (line 110): the next round trip of the network;
    redirects are never followed by the client itself (lines 103-107). *)
Definition clientDo (tr : http.Transport) (req : http.Request) : M Exchange := λ s,
  (Done (RoundTrip (roundTrips s) tr req), mkState (w s) (S (roundTrips s))).

(** Lines 141-147 *)
Definition fmta (d : time.Duration) : string :=
  pretty (Z.quot d time.Millisecond) +:+ "ms".
Definition fmtb (d : time.Duration) : string :=
  pretty (Z.quot d time.Millisecond) +:+ "ms".

(** [Request.visit] (lines 44-176).  The recursion of line 174 is bounded
    by [fuel], the number of attempts allowed. *)
Fixpoint visit (fuel : nat) (r : Request) : M unit :=
  match fuel with
  | O => outOfFuel
  | S fuel' =>
      req ← cook r;
      tr ← newTransport r req;
      ex ← clientDo tr req;
      t ← foldM hook (events ex) zeroMarks;
      resp ← orPanic FailedToReadResponse (result ex);
      let bodyMsg := readResponseBody req resp in
      let t5 := bodyRead ex in
      let t0 := if time.IsZero (t0 t) then t1 t else t0 t in
      report ("HTTP/" +:+ pretty (http.ProtoMajor resp) +:+ "."
                +:+ pretty (http.ProtoMinor resp) +:+ " " +:+ http.Status resp) ;;
      let names := sortHeaders (map_to_list (http.RespHeader resp)).*1 in
      forEach (λ k, report (k +:+ ": "
                              +:+ strings.Join (default [] (http.RespHeader resp !! k)) ","))
              names ;;
      (if decide (bodyMsg = "") then mret tt else report bodyMsg) ;;
      report ("DNS lookup: " +:+ fmta (time.Sub (t1 t) t0)) ;;
      report ("TCP connection: " +:+ fmta (time.Sub (t2 t) (t1 t))) ;;
      report ("TLS handshake: " +:+ fmta (time.Sub (t3 t) (t2 t))) ;;
      report ("Server processing: " +:+ fmta (time.Sub (t4 t) (t3 t))) ;;
      report ("Content transfer: " +:+ fmta (time.Sub t5 (t4 t))) ;;
      report (nl +:+ "Total: " +:+ fmtb (time.Sub t5 t0)) ;;
      if FollowRedirects r && isRedirect resp then
        match Response_Location req resp with
        | http.ErrNoLocation => mret tt
        | http.LocationError err => makePanic (UnableToFollowRedirect err)
        | http.Location loc =>
            incrRedirects ;;
            n ← getRedirects;
            if MaxRedirects r <? n then makePanic (MaximumRedirects (MaxRedirects r))
            else
              report nl ;;
              visit fuel' (setURL loc r)
        end
      else mret tt
  end.

(** Modelled from the spec: the Response that the caller creates once,
    before the first attempt, has an empty log and its counter at 0; no
    round trip has been made. *)
Definition newState : State := mkState (mkResponse [] 0) 0.

(** Modelled from the spec: [Trace] is called by the web layer but is not
    shown; it runs [visit] on a new Response and hands the Response back
    when the chain has ended. *)
Definition Trace (fuel : nat) (r : Request) : Result unit * State :=
  visit fuel r newState.

End Stat.

(** ** A concrete platform, for running the model *)

Module Sample.

(** A header line is split at its first colon; blanks after the colon
    are dropped. *)
Fixpoint dropBlanks (s : string) : string :=
  match s with
  | String " " s' => dropBlanks s'
  | _ => s
  end.

Definition splitHeader (h : string) : string * string :=
  let i := strings.IndexByteString h colon in
  if i <? 0 then (h, "")
  else (strings.upto h i, dropBlanks (strings.from h (i + 1))).

(** Case folding of ASCII letters only. *)
Definition foldASCII (a b : string) : bool := String.eqb (ToLower a) (ToLower b).

Definition is3xx (resp : http.Response) : bool :=
  (299 <? http.StatusCode resp) && (http.StatusCode resp <? 400).

(** A platform on which no helper fails, for the network [rt]. *)
Definition platform (rt : nat → http.Transport → http.Request → Exchange)
  : Platform :=
  {| parseURL := λ path, inr (url.mkURL "http" path "/");
     headerKeyValue := splitHeader;
     readClientCert := λ _, inr [];
     readResponseBody := λ _ _, "";
     isRedirect := is3xx;
     EqualFold := foldASCII;
     CanonicalMIMEHeaderKey := λ k, k;
     NewRequestError := λ _ _, None;
     ConfigureTransport := λ _, None;
     Parse := λ base ref, inr (url.mkURL (url.Scheme base) (url.Host base) ref);
     RoundTrip := rt |}.

(** The hooks of a request to a host name, and of one to a literal IP. *)
Definition namedEvents : list httptrace.Event :=
  [ httptrace.DNSStart 1000000; httptrace.DNSDone 13500000;
    httptrace.ConnectStart 13600000;
    httptrace.ConnectDone "93.184.216.34:80" None 40100000;
    httptrace.GotConn 40200000; httptrace.GotFirstResponseByte 95900000 ].

Definition literalEvents : list httptrace.Event :=
  [ httptrace.ConnectStart 13600000;
    httptrace.ConnectDone "93.184.216.34:80" None 40100000;
    httptrace.GotConn 40200000; httptrace.GotFirstResponseByte 95900000 ].

Definition okResponse : http.Response :=
  http.mkResponse 1 1 "200 OK" 200
    (<["X-Foo" := ["a"; "b"]]> (<["Content-Type" := ["text/html"]]> ∅)).

Definition movedResponse : http.Response :=
  http.mkResponse 1 1 "302 Found" 302 (<["Location" := ["/next"]]> ∅).

Definition bareRedirect : http.Response :=
  http.mkResponse 1 1 "301 Moved Permanently" 301 (<["Server" := ["x"]]> ∅).

(** Four networks: one that answers 200, one that redirects for ever,
    one that redirects without a Location, one that fails to answer. *)
Definition okServer (_ : nat) (_ : http.Transport) (_ : http.Request) : Exchange :=
  mkExchange namedEvents (inr okResponse) 99200000.

Definition loopServer (_ : nat) (_ : http.Transport) (_ : http.Request) : Exchange :=
  mkExchange literalEvents (inr movedResponse) 99200000.

Definition bareServer (_ : nat) (_ : http.Transport) (_ : http.Request) : Exchange :=
  mkExchange literalEvents (inr bareRedirect) 99200000.

Definition deadServer (_ : nat) (_ : http.Transport) (_ : http.Request) : Exchange :=
  mkExchange literalEvents (inl "EOF") 99200000.

Definition request (target : url.URL) (limit : Z) : Request :=
  mkRequest target [] "GET" "" "" true false false false limit.

Definition example_com : url.URL := url.mkURL "http" "example.com" "/".

(** The wire request and the transport that [cook] and [visit] build
    for [request target limit] over plain http. *)
Definition wire (target : url.URL) : http.Request :=
  http.mkRequest "GET" target (http.removeEmptyPort (url.Host target)) ∅
                 (io.StringsReader "").

Definition plain : http.Transport :=
  http.mkTransport 100 (90 * time.Second) (10 * time.Second) (1 * time.Second) None.

Definition secure (target : url.URL) : http.Transport :=
  http.mkTransport 100 (90 * time.Second) (10 * time.Second) (1 * time.Second)
    (Some (tls.mkConfig
             (match net.SplitHostPort (http.removeEmptyPort (url.Host target)) with
              | Some (host, _) => host
              | None => http.removeEmptyPort (url.Host target)
              end) false [])).

(** Two https targets, a bracketed one, and a request with headers. *)
Definition with_port : url.URL := url.mkURL "https" "example.com:8443" "/".

Definition decorated : Request :=
  mkRequest example_com
    ["Host: a.example"; "X-Foo: 1"; "host: b.example"; "X-Foo: 2"; "Accept: text/html"]
    "GET" "" "" true false false false 2.

(** A platform whose helpers can fail: [cert] is what reading the client
    certificate gives, [h2] the error of the HTTP/2 preparation, [parse]
    the resolution of a Location. *)
Definition custom (cert : string + list tls.Certificate) (h2 : option string)
           (parse : url.URL → string → string + url.URL)
           (rt : nat → http.Transport → http.Request → Exchange) : Platform :=
  {| parseURL := λ path, if decide (path = "") then inl "empty url"
                         else inr (url.mkURL "http" path "/");
     headerKeyValue := splitHeader;
     readClientCert := λ _, cert;
     readResponseBody := λ _ _, "";
     isRedirect := is3xx;
     EqualFold := foldASCII;
     CanonicalMIMEHeaderKey := λ k, k;
     NewRequestError := λ _ _, None;
     ConfigureTransport := λ _, h2;
     Parse := parse;
     RoundTrip := rt |}.

(** Hooks of a round trip whose second connection is refused. *)
Definition refusedEvents : list httptrace.Event :=
  [ httptrace.DNSStart 1000000; httptrace.DNSDone 13500000;
    httptrace.ConnectStart 13600000;
    httptrace.ConnectDone "[2606:2800::1]:80" None 20000000;
    httptrace.ConnectStart 20100000;
    httptrace.ConnectDone "93.184.216.34:80" (Some "connection refused") 40100000;
    httptrace.GotConn 40200000 ].

Definition refusingServer (_ : nat) (_ : http.Transport) (_ : http.Request) : Exchange :=
  mkExchange refusedEvents (inr okResponse) 99200000.

(** A server that redirects once and then answers 200. *)
Definition onceServer (n : nat) (_ : http.Transport) (_ : http.Request) : Exchange :=
  match n with
  | O => mkExchange literalEvents (inr movedResponse) 99200000
  | _ => mkExchange namedEvents (inr okResponse) 99200000
  end.

(** An https request with a Host header, a client certificate and
    certificate checks switched off. *)
Definition overridden : Request :=
  mkRequest with_port ["Host: internal.example:9443"; "X-Foo: 1"] "POST" "payload"
            "client.pem" true false true false 2.

(** A state in which something has been logged already. *)
Definition midway : State := mkState (mkResponse ["earlier"] 0) 0.


Definition overriddenWire : http.Request :=
  http.mkRequest "POST" with_port "internal.example:9443"
    (<["X-Foo" := ["1"]]> ∅) (io.StringsReader "payload").

Definition overriddenTransport (certs : list tls.Certificate) : http.Transport :=
  http.mkTransport 100 (90 * time.Second) (10 * time.Second) (1 * time.Second)
    (Some (tls.mkConfig "internal.example" true certs)).

(** Where the looping server sends [example_com]. *)
Definition next_com : url.URL := url.mkURL "http" "example.com" "/next".

End Sample.

(** ** Vocabulary of the statements *)

Section Vocabulary.
Context `{Platform}.

(** Lines 157-173 of [visit] on their own: what follows the report of a
    hop.  [Some r'] is the request of the recursive call of line 174. *)
Definition redirect (r : Request) (req : http.Request) (resp : http.Response)
  : M (option Request) :=
  if FollowRedirects r && isRedirect resp then
    match Response_Location req resp with
    | http.ErrNoLocation => mret None
    | http.LocationError err => makePanic (UnableToFollowRedirect err)
    | http.Location loc =>
        incrRedirects ;;
        n ← getRedirects;
        if MaxRedirects r <? n then makePanic (MaximumRedirects (MaxRedirects r))
        else
          report nl ;;
          mret (Some (setURL loc r))
    end
  else mret None.

(** Lines 45-173 of [visit] on their own: one attempt, without the
    recursive call. *)
Definition attempt (r : Request) : M (option Request) :=
  req ← cook r;
  tr ← newTransport r req;
  ex ← clientDo tr req;
  t ← foldM hook (events ex) zeroMarks;
  resp ← orPanic FailedToReadResponse (result ex);
  let bodyMsg := readResponseBody req resp in
  let t5 := bodyRead ex in
  let t0 := if time.IsZero (t0 t) then t1 t else t0 t in
  report ("HTTP/" +:+ pretty (http.ProtoMajor resp) +:+ "."
            +:+ pretty (http.ProtoMinor resp) +:+ " " +:+ http.Status resp) ;;
  let names := sortHeaders (map_to_list (http.RespHeader resp)).*1 in
  forEach (λ k, report (k +:+ ": "
                          +:+ strings.Join (default [] (http.RespHeader resp !! k)) ","))
          names ;;
  (if decide (bodyMsg = "") then mret tt else report bodyMsg) ;;
  report ("DNS lookup: " +:+ fmta (time.Sub (t1 t) t0)) ;;
  report ("TCP connection: " +:+ fmta (time.Sub (t2 t) (t1 t))) ;;
  report ("TLS handshake: " +:+ fmta (time.Sub (t3 t) (t2 t))) ;;
  report ("Server processing: " +:+ fmta (time.Sub (t4 t) (t3 t))) ;;
  report ("Content transfer: " +:+ fmta (time.Sub t5 (t4 t))) ;;
  report (nl +:+ "Total: " +:+ fmtb (time.Sub t5 t0)) ;;
  redirect r req resp.

(** The state after [lines] have been reported. *)
Definition logged (lines : list string) (s : State) : State :=
  mkState (mkResponse (Log (w s) ++ lines) (redirectsFollowed (w s))) (roundTrips s).

(** The state after one more round trip. *)
Definition tick (s : State) : State := mkState (w s) (S (roundTrips s)).

(** [ConnectDone] was called with an error. *)
Definition refused (e : httptrace.Event) : bool :=
  match e with
  | httptrace.ConnectDone _ (Some _) _ => true
  | _ => false
  end.

(** What the hooks write to the marks, and to the log, when no connection
    is refused. *)
Definition stamp (t : Marks) (e : httptrace.Event) : Marks :=
  match e with
  | httptrace.DNSStart now => mkMarks now (t1 t) (t2 t) (t3 t) (t4 t)
  | httptrace.DNSDone now => mkMarks (t0 t) now (t2 t) (t3 t) (t4 t)
  | httptrace.ConnectStart now =>
      if time.IsZero (t1 t) then mkMarks (t0 t) now (t2 t) (t3 t) (t4 t) else t
  | httptrace.ConnectDone _ None now => mkMarks (t0 t) (t1 t) now (t3 t) (t4 t)
  | httptrace.ConnectDone _ (Some _) _ => t
  | httptrace.GotConn now => mkMarks (t0 t) (t1 t) (t2 t) now (t4 t)
  | httptrace.GotFirstResponseByte now => mkMarks (t0 t) (t1 t) (t2 t) (t3 t) now
  end.

Definition stamps (evs : list httptrace.Event) : Marks := fold_left stamp evs zeroMarks.

Fixpoint connected (evs : list httptrace.Event) : list string :=
  match evs with
  | [] => []
  | httptrace.ConnectDone addr None _ :: evs' =>
      ("Connected to " +:+ addr +:+ nl) :: connected evs'
  | _ :: evs' => connected evs'
  end.

(** [dnsStart] after the backfill of lines 119-122. *)
Definition dnsStart (t : Marks) : time.Time :=
  if time.IsZero (t0 t) then t1 t else t0 t.

(** The number [fmta] and [fmtb] print: [int(d/time.Millisecond)]. *)
Definition ms (d : time.Duration) : Z := Z.quot d time.Millisecond.

(** The six numbers printed for marks [t] and the instant [t5]. *)
Definition dnsLookup (t : Marks) : Z := ms (time.Sub (t1 t) (dnsStart t)).
Definition tcpConnection (t : Marks) : Z := ms (time.Sub (t2 t) (t1 t)).
Definition tlsHandshake (t : Marks) : Z := ms (time.Sub (t3 t) (t2 t)).
Definition serverProcessing (t : Marks) : Z := ms (time.Sub (t4 t) (t3 t)).
Definition contentTransfer (t : Marks) (t5 : time.Time) : Z := ms (time.Sub t5 (t4 t)).
Definition total (t : Marks) (t5 : time.Time) : Z := ms (time.Sub t5 (dnsStart t)).

Definition statusLine (resp : http.Response) : string :=
  "HTTP/" +:+ pretty (http.ProtoMajor resp) +:+ "."
    +:+ pretty (http.ProtoMinor resp) +:+ " " +:+ http.Status resp.

Definition headerNames (resp : http.Response) : list string :=
  (map_to_list (http.RespHeader resp)).*1.

Definition headerLine (resp : http.Response) (k : string) : string :=
  k +:+ ": " +:+ strings.Join (default [] (http.RespHeader resp !! k)) ",".

Definition bodyLines (bodyMsg : string) : list string :=
  if decide (bodyMsg = "") then [] else [bodyMsg].

Definition timingLines (t : Marks) (t5 : time.Time) : list string :=
  [ "DNS lookup: " +:+ pretty (dnsLookup t) +:+ "ms";
    "TCP connection: " +:+ pretty (tcpConnection t) +:+ "ms";
    "TLS handshake: " +:+ pretty (tlsHandshake t) +:+ "ms";
    "Server processing: " +:+ pretty (serverProcessing t) +:+ "ms";
    "Content transfer: " +:+ pretty (contentTransfer t t5) +:+ "ms";
    nl +:+ "Total: " +:+ pretty (total t t5) +:+ "ms" ].

(** Everything a completed attempt appends to the log before it looks at
    the redirect. *)
Definition hopReport (req : http.Request) (ex : Exchange) (resp : http.Response)
  : list string :=
  connected (events ex)
    ++ [statusLine resp]
    ++ map (headerLine resp) (sortHeaders (headerNames resp))
    ++ bodyLines (readResponseBody req resp)
    ++ timingLines (stamps (events ex)) (bodyRead ex).

(** The attempt of [r] in state [s] completes: the wire request [req] and
    the transport [tr] are built, no connection is refused during the
    round trip [ex], and [client.Do] returns the response [resp]. *)
Definition completes (r : Request) (s : State) (req : http.Request)
           (tr : http.Transport) (ex : Exchange) (resp : http.Response) : Prop :=
  cook r s = (Done req, s)
  ∧ newTransport r req s = (Done tr, s)
  ∧ ex = RoundTrip (roundTrips s) tr req
  ∧ forallb (λ e, negb (refused e)) (events ex) = true
  ∧ result ex = inr resp.

(** The rest of [visit] once [redirect] has decided (line 174). *)
Definition continue (fuel : nat) (next : option Request) : M unit :=
  match next with
  | Some r' => visit fuel r'
  | None => mret tt
  end.

(** The state after [w.redirectsFollowed++]. *)
Definition bumped (s : State) : State :=
  mkState (mkResponse (Log (w s)) (int.incr (redirectsFollowed (w s)))) (roundTrips s).

(** The layout the specification gives for the block of one hop, as
    lines of the rendered text: status line, sorted header lines, body
    summary if any, a blank line, five phase lines, a blank line and the
    total line. *)
Definition specLayout (resp : http.Response) (bodyMsg : string)
           (t : Marks) (t5 : time.Time) : list string :=
  [statusLine resp]
    ++ map (headerLine resp) (sortHeaders (headerNames resp))
    ++ bodyLines bodyMsg
    ++ [""]
    ++ take 5 (timingLines t t5)
    ++ [""; "Total: " +:+ pretty (total t t5) +:+ "ms"].

(** The lines a Response renders to ([Response.String], split at
    newlines). *)
Definition rendered (response : Response) : list string :=
  strings.Lines (Response_String response).

(** Whatever the target and the state of the trace, the attempt
    completes with a redirect response whose Location resolves. *)
Definition alwaysRedirects (r : Request) : Prop :=
  ∀ (u : url.URL) (s : State), ∃ req tr ex resp loc,
    completes (setURL u r) s req tr ex resp
    ∧ isRedirect resp = true
    ∧ Response_Location req resp = http.Location loc.

(** How many times the run [visit fuel r s] executes the recursive call
    of line 174, that is, how many redirects it follows. *)
Fixpoint followed (fuel : nat) (r : Request) (s : State) : nat :=
  match fuel with
  | O => O
  | S fuel' =>
      match attempt r s with
      | (Done (Some r'), s') => S (followed fuel' r' s')
      | _ => O
      end
  end.

(** The part of the events that the hooks see before a connection is
    refused. *)
Fixpoint accepted (evs : list httptrace.Event) : list httptrace.Event :=
  match evs with
  | [] => []
  | e :: evs' => if refused e then [] else e :: accepted evs'
  end.

(** The wire request and the round trip of the attempt of [r] in state
    [s], when it gets that far. *)
Definition exchangeOf (r : Request) (s : State) : option (http.Request * Exchange) :=
  match cook r s with
  | (Done req, _) =>
      match newTransport r req s with
      | (Done tr, _) => Some (req, RoundTrip (roundTrips s) tr req)
      | _ => None
      end
  | _ => None
  end.


(** The captured instants are in chronological order and the hop fits in
    a [Duration]. *)
Definition chronological (t : Marks) (t5 : time.Time) : Prop :=
  dnsStart t ≤ t1 t ∧ t1 t ≤ t2 t ∧ t2 t ≤ t3 t ∧ t3 t ≤ t4 t ∧ t4 t ≤ t5
  ∧ t5 - dnsStart t ≤ time.maxDuration.






(** The byte [c] occurs in [s]. *)
Fixpoint containsByte (c : ascii) (s : string) : bool :=
  match s with
  | EmptyString => false
  | String a s' => Ascii.eqb a c || containsByte c s'
  end.



(** The values of the supplied headers whose key folds to "host", and the
    values of the other headers whose key has the canonical form [key],
    both in the order given. *)
Fixpoint hostValues (headers : list string) : list string :=
  match headers with
  | [] => []
  | h :: headers' =>
      let '(k, v) := headerKeyValue h in
      if EqualFold k "host" then v :: hostValues headers' else hostValues headers'
  end.

Fixpoint addedValues (key : string) (headers : list string) : list string :=
  match headers with
  | [] => []
  | h :: headers' =>
      let '(k, v) := headerKeyValue h in
      if EqualFold k "host" then addedValues key headers'
      else if decide (CanonicalMIMEHeaderKey k = key) then v :: addedValues key headers'
      else addedValues key headers'
  end.

(** The transport literal of lines 72-78. *)
Definition baseTransport : http.Transport :=
  http.mkTransport 100 (90 * time.Second) (10 * time.Second) (1 * time.Second) None.


(** The text has no newline. *)
Definition oneLine (s : string) : Prop := containsByte "010"%char s = false.

End Vocabulary.

(** ** Package [main]: the web layer *)

Section Web.
Context `{Platform}.





End Web.

(** ** The monad and the hooks *)

Section Hooks.
Context `{Platform}.

Lemma bind_run {A B} (m : M A) (k : A → M B) (s : State) :
  (m ≫= k) s = match m s with
               | (Done a, s') => k a s'
               | (Panicked f, s') => (Panicked f, s')
               | (OutOfFuel, s') => (OutOfFuel, s')
               end.
Proof. reflexivity. Qed.

Lemma bind_Done {A B} (m : M A) (k : A → M B) (s s' : State) (a : A) :
  m s = (Done a, s') → (m ≫= k) s = k a s'.
Proof. intros E. rewrite bind_run, E. reflexivity. Qed.

Lemma bind_Panicked {A B} (m : M A) (k : A → M B) (s s' : State) (f : Fatal) :
  m s = (Panicked f, s') → (m ≫= k) s = (Panicked f, s').
Proof. intros E. rewrite bind_run, E. reflexivity. Qed.

Lemma report_run (line : string) (s : State) :
  report line s = (Done tt, logged [line] s).
Proof. reflexivity. Qed.

Lemma logged_nil (s : State) : logged [] s = s.
Proof. destruct s as [[l n] k]. unfold logged. simpl. by rewrite app_nil_r. Qed.

Lemma logged_logged (l1 l2 : list string) (s : State) :
  logged l2 (logged l1 s) = logged (l1 ++ l2) s.
Proof. unfold logged. simpl. by rewrite app_assoc. Qed.

Lemma forEach_report (f : string → string) (l : list string) (s : State) :
  forEach (λ k, report (f k)) l s = (Done tt, logged (map f l) s).
Proof.
  revert s. induction l as [|x l IH]; intros s; simpl.
  - by rewrite logged_nil.
  - rewrite bind_run, report_run, IH, logged_logged. reflexivity.
Qed.


(** When no connection is refused the hooks only stamp the marks and log
    the connections made. *)
Lemma hooks_run (evs : list httptrace.Event) (t : Marks) (s : State) :
  forallb (λ e, negb (refused e)) evs = true →
  foldM hook evs t s = (Done (fold_left stamp evs t), logged (connected evs) s).
Proof.
  revert t s. induction evs as [|e evs IH]; intros t s Hok; simpl in *.
  - by rewrite logged_nil.
  - apply andb_prop in Hok as [He Hok].
    destruct e as [now|now|now|addr [err|] now|now|now]; simpl in *;
      try discriminate;
      rewrite bind_run; simpl;
      try (by rewrite IH).
    + destruct (time.IsZero (t1 t)); simpl; by rewrite IH.
    + rewrite IH by done. unfold logged; simpl. by rewrite <- app_assoc.
Qed.

End Hooks.

(** ** The order of the header names *)

Section HeadersOrder.

Lemma string_compare_refl (a : string) : String.compare a a = Eq.
Proof.
  induction a as [|c a IH]; simpl; [done|].
  unfold Ascii.compare. by rewrite N.compare_refl.
Qed.

Lemma string_compare_Lt_trans (a b c : string) :
  String.compare a b = Lt → String.compare b c = Lt → String.compare a c = Lt.
Proof.
  revert b c. induction a as [|x a IH]; intros [|y b] [|z c]; simpl; try done.
  unfold Ascii.compare.
  destruct (N.compare_spec (N_of_ascii x) (N_of_ascii y)) as [Exy|Lxy|Gxy];
    destruct (N.compare_spec (N_of_ascii y) (N_of_ascii z)) as [Eyz|Lyz|Gyz];
    try done; intros Hab Hbc.
  - rewrite Exy, Eyz, N.compare_refl. eauto.
  - rewrite Exy. by apply N.compare_lt_iff in Lyz as ->.
  - rewrite <- Eyz. by apply N.compare_lt_iff in Lxy as ->.
  - assert (N_of_ascii x < N_of_ascii z)%N as Hlt by lia.
    by apply N.compare_lt_iff in Hlt as ->.
Qed.

Lemma string_compare_Gt_Lt (a b : string) :
  String.compare a b = Gt → String.compare b a = Lt.
Proof. intros E. rewrite String.compare_antisym, E. reflexivity. Qed.

Lemma string_leb_trans (a b c : string) :
  String.leb a b = true → String.leb b c = true → String.leb a c = true.
Proof.
  unfold String.leb.
  destruct (String.compare a b) eqn:Eab; try done;
    destruct (String.compare b c) eqn:Ebc; try done; intros _ _.
  - apply String.compare_eq_iff in Eab as ->. by rewrite Ebc.
  - apply String.compare_eq_iff in Eab as ->. by rewrite Ebc.
  - apply String.compare_eq_iff in Ebc as <-. by rewrite Eab.
  - by rewrite (string_compare_Lt_trans a b c).
Qed.

#[export] Instance headersLe_total : Total headersLe.
Proof.
  intros a b. unfold headersLe, headersLeb.
  destruct (String.compare (ToLower a) (ToLower b)) eqn:E.
  - apply String.compare_eq_iff in E. rewrite E, string_compare_refl.
    apply String.leb_total.
  - by left.
  - right. by rewrite (string_compare_Gt_Lt _ _ E).
Qed.

#[export] Instance headersLe_trans : Transitive headersLe.
Proof.
  intros a b c. unfold headersLe, headersLeb.
  destruct (String.compare (ToLower a) (ToLower b)) eqn:Eab; try done;
    destruct (String.compare (ToLower b) (ToLower c)) eqn:Ebc; try done.
  - apply String.compare_eq_iff in Eab. apply String.compare_eq_iff in Ebc.
    rewrite Eab, Ebc, string_compare_refl. apply string_leb_trans.
  - apply String.compare_eq_iff in Eab. by rewrite Eab, Ebc.
  - apply String.compare_eq_iff in Ebc. by rewrite <- Ebc, Eab.
  - by rewrite (string_compare_Lt_trans _ _ _ Eab Ebc).
Qed.

#[export] Instance headersLe_antisym : AntiSymm eq headersLe.
Proof.
  intros a b. unfold headersLe, headersLeb.
  destruct (String.compare (ToLower a) (ToLower b)) eqn:E; try done.
  - apply String.compare_eq_iff in E. rewrite E, string_compare_refl.
    apply String.leb_antisym.
  - rewrite String.compare_antisym, E. done.
Qed.

Lemma sortHeaders_sorted (names : list string) :
  StronglySorted headersLe (sortHeaders names).
Proof. apply StronglySorted_merge_sort; apply _. Qed.

Lemma sortHeaders_perm (names : list string) : sortHeaders names ≡ₚ names.
Proof. apply merge_sort_Permutation. Qed.

(** The sorted block does not depend on the order in which the map of
    the response headers is ranged over. *)
Lemma sortHeaders_unique (names names' : list string) :
  names ≡ₚ names' → sortHeaders names = sortHeaders names'.
Proof.
  intros Hp. apply (StronglySorted_unique headersLe); try apply sortHeaders_sorted.
  by rewrite !sortHeaders_perm.
Qed.

Example sortHeaders_folds_case :
  sortHeaders ["x-b"; "Server"; "X-A"; "date"; "Date"]
  = ["Date"; "date"; "Server"; "X-A"; "x-b"].
Proof. reflexivity. Qed.

End HeadersOrder.

(** ** One attempt *)

Section Attempt.
Context `{Platform}.

(** A completed attempt reports its block and then decides about the
    redirect. *)
Lemma attempt_completes r s req tr ex resp :
  completes r s req tr ex resp →
  attempt r s = redirect r req resp (logged (hopReport req ex resp) (tick s)).
Proof.
  intros (Hcook & Htr & Hex & Hev & Hres).
  unfold attempt.
  rewrite (bind_Done _ _ _ _ _ Hcook).
  rewrite (bind_Done _ _ _ _ _ Htr).
  rewrite bind_run. unfold clientDo at 1. rewrite <- Hex. fold (tick s).
  rewrite bind_run, (hooks_run _ _ _ Hev).
  rewrite bind_run, Hres. unfold orPanic at 1. unfold mret at 1, M_ret at 1.
  rewrite bind_run, report_run, logged_logged.
  rewrite bind_run, (forEach_report (headerLine resp)), logged_logged.
  assert (Hbody : ∀ s0 : State,
    (if decide (readResponseBody req resp = "") then mret tt
     else report (readResponseBody req resp)) s0
    = (Done tt, logged (bodyLines (readResponseBody req resp)) s0)).
  { intros s0. unfold bodyLines. destruct (decide _).
    - by rewrite logged_nil.
    - apply report_run. }
  rewrite bind_run, Hbody, logged_logged.
  do 6 rewrite bind_run, report_run, logged_logged.
  unfold hopReport, timingLines. rewrite <- !app_assoc. reflexivity.
Qed.

End Attempt.

(** ** The redirect step and the chain *)

Section Chain.
Context `{Platform}.

Lemma redirect_run r req resp s :
  redirect r req resp s =
    if FollowRedirects r && isRedirect resp then
      match Response_Location req resp with
      | http.ErrNoLocation => (Done None, s)
      | http.LocationError err => (Panicked (UnableToFollowRedirect err), s)
      | http.Location loc =>
          if MaxRedirects r <? int.incr (redirectsFollowed (w s))
          then (Panicked (MaximumRedirects (MaxRedirects r)), bumped s)
          else (Done (Some (setURL loc r)), logged [nl] (bumped s))
      end
    else (Done None, s).
Proof.
  unfold redirect. destruct (FollowRedirects r && isRedirect resp); [|done].
  destruct (Response_Location req resp); try done.
  rewrite bind_run. unfold incrRedirects at 1. fold (bumped s).
  rewrite bind_run. unfold getRedirects at 1. simpl.
  destruct (MaxRedirects r <? int.incr (redirectsFollowed (w s))); reflexivity.
Qed.

Lemma bind_assoc {A B C} (m : M A) (k : A → M B) (k' : B → M C) (s : State) :
  ((m ≫= k) ≫= k') s = (m ≫= (λ a, k a ≫= k')) s.
Proof. rewrite !bind_run. by destruct (m s) as [[a|f|] s1]. Qed.

Lemma bind_ext {A B} (m : M A) (k k' : A → M B) (s : State) :
  (∀ a s1, k a s1 = k' a s1) → (m ≫= k) s = (m ≫= k') s.
Proof. intros Hk. rewrite !bind_run. destruct (m s) as [[a|f|] s1]; auto. Qed.

(** [visit] is an attempt followed, when a redirect is to be followed, by
    the [visit] of the next request. *)
Lemma visit_S fuel r s : visit (S fuel) r s = (attempt r ≫= continue fuel) s.
Proof.
  unfold attempt. simpl.
  do 14 (rewrite bind_assoc; apply bind_ext; intros ? ?).
  unfold redirect.
  destruct (FollowRedirects r && isRedirect _); [|reflexivity].
  destruct (Response_Location _ _) as [|err|loc]; try reflexivity.
  rewrite bind_assoc. apply bind_ext. intros _ sa.
  rewrite bind_assoc. apply bind_ext. intros n sb.
  destruct (MaxRedirects r <? n); [reflexivity|].
  rewrite bind_assoc. apply bind_ext. intros _ sc. reflexivity.
Qed.

Lemma incr_small (c : Z) : int.min ≤ c < int.max → int.incr c = c + 1.
Proof.
  unfold int.incr, int.wrap, int.min, int.max. intros Hc.
  rewrite Z.mod_small by lia. lia.
Qed.

(** No Location header: [resp.Location()] is [ErrNoLocation]. *)
Lemma no_Location req resp :
  http.RespHeader resp !! "Location" = None →
  Response_Location req resp = http.ErrNoLocation.
Proof.
  intros Hnone. unfold Response_Location, Header_Get. rewrite Hnone.
  by destruct (decide _).
Qed.

(** A server that always redirects exhausts the budget: from a counter
    [k] below the limit, the chain makes [k + 1] round trips, follows [k]
    redirects and then aborts on the limit. *)
Lemma budget_exhausted (r : Request) :
  FollowRedirects r = true → alwaysRedirects r → MaxRedirects r < int.max →
  ∀ (k : nat) (u : url.URL) (s : State) (fuel : nat),
    int.min ≤ redirectsFollowed (w s) →
    Z.of_nat k = MaxRedirects r - redirectsFollowed (w s) →
    (k < fuel)%nat →
    ∃ s', visit fuel (setURL u r) s = (Panicked (MaximumRedirects (MaxRedirects r)), s')
          ∧ roundTrips s' = (roundTrips s + S k)%nat
          ∧ redirectsFollowed (w s') = MaxRedirects r + 1
          ∧ followed fuel (setURL u r) s = k.
Proof.
  intros Hfollow Hloop Hmax k.
  induction k as [|k IH]; intros u s fuel Hmin Hk Hfuel;
    (destruct fuel as [|fuel]; [lia|]);
    destruct (Hloop u s) as (req & tr & ex & resp & loc & Hc & Hred & Hloc);
    pose proof (attempt_completes _ _ _ _ _ _ Hc) as Hatt;
    rewrite redirect_run in Hatt; simpl in Hatt;
    rewrite Hfollow, Hred, Hloc in Hatt; simpl in Hatt;
    rewrite incr_small in Hatt by lia.
  - assert ((MaxRedirects r <? redirectsFollowed (w s) + 1) = true) as Hlt
      by (apply Z.ltb_lt; lia).
    rewrite Hlt in Hatt.
    eexists. rewrite visit_S, (bind_Panicked _ _ _ _ _ Hatt).
    split; [reflexivity|]. simpl. rewrite Hatt.
    rewrite incr_small by lia. repeat split; lia.
  - assert ((MaxRedirects r <? redirectsFollowed (w s) + 1) = false) as Hlt
      by (apply Z.ltb_ge; lia).
    rewrite Hlt in Hatt.
    match type of Hatt with _ = (_, ?s1) =>
      destruct (IH loc s1 fuel) as (s' & Hv & Hrt & Hcnt & Hfol) end.
    + simpl. rewrite incr_small by lia. lia.
    + simpl. rewrite incr_small by lia. lia.
    + lia.
    + exists s'. rewrite visit_S, (bind_Done _ _ _ _ _ Hatt). simpl.
      rewrite Hatt. repeat split; try done.
      * simpl in Hrt. lia.
      * f_equal. exact Hfol.
Qed.

End Chain.

(** ** The report of one hop *)

Section Report.
Context `{Platform}.

(** C1 (as amended).  For every hop that completes, the entries appended
    to the log are, in this order and nothing else: one entry
    "Connected to <addr>\n" per successful connect-done event, the status
    line, the header lines sorted case-insensitively by name (whatever the
    order in which the map of the headers is ranged over), the
    body-summary line if it is not empty, then directly the five
    phase-duration lines and one entry "\nTotal: <N>ms"; the redirect
    step that follows appends nothing, or the single entry "\n" when the
    redirect is followed. *)
Theorem hop_report_layout fuel r s req tr ex resp :
  completes r s req tr ex resp →
  visit (S fuel) r s
    = (redirect r req resp ≫= continue fuel)
        (logged (connected (events ex)
                   ++ [statusLine resp]
                   ++ map (headerLine resp) (sortHeaders (headerNames resp))
                   ++ bodyLines (readResponseBody req resp)
                   ++ timingLines (stamps (events ex)) (bodyRead ex))
                (tick s))
  ∧ StronglySorted headersLe (sortHeaders (headerNames resp))
  ∧ sortHeaders (headerNames resp) ≡ₚ headerNames resp
  ∧ (∀ names, names ≡ₚ headerNames resp →
       sortHeaders names = sortHeaders (headerNames resp))
  ∧ ∀ s1, Log (w (redirect r req resp s1).2) = Log (w s1)
          ∨ ∃ loc, redirect r req resp s1
                   = (Done (Some (setURL loc r)), logged [nl] (bumped s1)).
Proof.
  intros Hc. repeat split.
  - rewrite visit_S, !bind_run, (attempt_completes _ _ _ _ _ _ Hc). reflexivity.
  - apply sortHeaders_sorted.
  - apply sortHeaders_perm.
  - intros Hp. by apply sortHeaders_unique.
  - intros s1. rewrite redirect_run.
    destruct (FollowRedirects r && isRedirect resp); [|by left].
    destruct (Response_Location req resp) as [|err|loc]; try by left.
    destruct (MaxRedirects r <? _); [by left|]. right. by exists loc.
Qed.

(** C3.  A redirect response without a Location header, with
    [FollowRedirects] set, ends the trace normally: the log ends with the
    full block of that hop, the counter is unchanged and no further
    round trip is made. *)
Theorem no_location_stops fuel r s req tr ex resp :
  completes r s req tr ex resp →
  FollowRedirects r = true →
  isRedirect resp = true →
  http.RespHeader resp !! "Location" = None →
  ∃ s', visit (S fuel) r s = (Done tt, s')
        ∧ Log (w s') = Log (w s) ++ hopReport req ex resp
        ∧ (∃ block, hopReport req ex resp
                    = block ++ timingLines (stamps (events ex)) (bodyRead ex))
        ∧ redirectsFollowed (w s') = redirectsFollowed (w s)
        ∧ roundTrips s' = S (roundTrips s)
        ∧ followed (S fuel) r s = O.
Proof.
  intros Hc Hfollow Hred Hnone.
  pose proof (attempt_completes _ _ _ _ _ _ Hc) as Hatt.
  rewrite redirect_run, Hfollow, Hred, (no_Location _ _ Hnone) in Hatt. simpl in Hatt.
  eexists. rewrite visit_S, (bind_Done _ _ _ _ _ Hatt). simpl.
  split; [reflexivity|]. rewrite Hatt. repeat split.
  unfold hopReport. eexists. rewrite !app_assoc. reflexivity.
Qed.

(** C2.  Against a server that always redirects with a resolvable
    Location, from a counter at 0: with [MaxRedirects = 2] the trace makes
    three round trips, that is, follows exactly 2 redirects, and then
    aborts with the message naming 2; with [MaxRedirects = 0] the first
    redirect response aborts the trace, after one round trip and no
    redirect followed. *)
Theorem redirect_budget r s :
  FollowRedirects r = true →
  alwaysRedirects r →
  redirectsFollowed (w s) = 0 →
  (MaxRedirects r = 2 → ∀ fuel, (3 ≤ fuel)%nat →
     ∃ s', visit fuel r s = (Panicked (MaximumRedirects 2), s')
           ∧ roundTrips s' = (roundTrips s + 3)%nat
           ∧ followed fuel r s = 2%nat
           ∧ message (MaximumRedirects 2) = "Maximum number of redirects (2) followed")
  ∧ (MaxRedirects r = 0 → ∀ fuel, (1 ≤ fuel)%nat →
       ∃ s', visit fuel r s = (Panicked (MaximumRedirects 0), s')
             ∧ roundTrips s' = (roundTrips s + 1)%nat
             ∧ followed fuel r s = 0%nat
             ∧ message (MaximumRedirects 0) = "Maximum number of redirects (0) followed").
Proof.
  intros Hfollow Hloop Hzero.
  assert (Hr : setURL (URL r) r = r) by (by destruct r).
  split; intros HM fuel Hfuel.
  - destruct (budget_exhausted r Hfollow Hloop) with (k := 2%nat) (u := URL r)
      (s := s) (fuel := fuel) as (s' & Hv & Hrt & _ & Hfol);
      try (rewrite ?HM, ?Hzero; unfold int.max, int.min; lia).
    rewrite Hr, HM in *. exists s'. repeat split; try done.
  - destruct (budget_exhausted r Hfollow Hloop) with (k := 0%nat) (u := URL r)
      (s := s) (fuel := fuel) as (s' & Hv & Hrt & _ & Hfol);
      try (rewrite ?HM, ?Hzero; unfold int.max, int.min; lia).
    rewrite Hr, HM in *. exists s'. repeat split; try done.
Qed.

End Report.

(** ** The report on concrete runs *)

Section ReportRuns.

Lemma ok_completes :
  completes (H := Sample.platform Sample.okServer)
    (Sample.request Sample.example_com 2) newState
    (Sample.wire Sample.example_com) Sample.plain
    (mkExchange Sample.namedEvents (inr Sample.okResponse) 99200000)
    Sample.okResponse.
Proof. repeat split. Qed.

Lemma hop_report_layout_witness :
  completes (H := Sample.platform Sample.okServer)
    (Sample.request Sample.example_com 2) newState
    (Sample.wire Sample.example_com) Sample.plain
    (mkExchange Sample.namedEvents (inr Sample.okResponse) 99200000)
    Sample.okResponse
  ∧ Log (w (visit (H := Sample.platform Sample.okServer) 1
              (Sample.request Sample.example_com 2) newState).2)
    = [ "Connected to 93.184.216.34:80" +:+ nl; "HTTP/1.1 200 OK";
        "Content-Type: text/html"; "X-Foo: a,b";
        "DNS lookup: 12ms"; "TCP connection: 26ms"; "TLS handshake: 0ms";
        "Server processing: 55ms"; "Content transfer: 3ms";
        nl +:+ "Total: 98ms" ].
Proof.
  split; [exact ok_completes|].
  destruct (hop_report_layout (H := Sample.platform Sample.okServer) 0
              _ _ _ _ _ _ ok_completes) as [-> _].
  reflexivity.
Defined.

(** C1 as stated fails.  On a 200 response the rendered trace starts with
    the line of the connection, and no blank line separates the headers
    from the phase lines: it is not the layout of the specification. *)
Lemma hop_report_layout_counterexample :
  rendered (w (Trace (H := Sample.platform Sample.okServer) 1
                 (Sample.request Sample.example_com 2)).2)
    = [ "Connected to 93.184.216.34:80"; ""; "HTTP/1.1 200 OK";
        "Content-Type: text/html"; "X-Foo: a,b";
        "DNS lookup: 12ms"; "TCP connection: 26ms"; "TLS handshake: 0ms";
        "Server processing: 55ms"; "Content transfer: 3ms"; ""; "Total: 98ms" ]
  ∧ specLayout Sample.okResponse "" (stamps Sample.namedEvents) 99200000
    = [ "HTTP/1.1 200 OK"; "Content-Type: text/html"; "X-Foo: a,b"; "";
        "DNS lookup: 12ms"; "TCP connection: 26ms"; "TLS handshake: 0ms";
        "Server processing: 55ms"; "Content transfer: 3ms"; ""; "Total: 98ms" ]
  ∧ rendered (w (Trace (H := Sample.platform Sample.okServer) 1
                   (Sample.request Sample.example_com 2)).2)
    ≠ specLayout Sample.okResponse "" (stamps Sample.namedEvents) 99200000.
Proof. repeat split. vm_compute. discriminate. Qed.

Lemma bare_completes :
  completes (H := Sample.platform Sample.bareServer)
    (Sample.request Sample.example_com 2) newState
    (Sample.wire Sample.example_com) Sample.plain
    (mkExchange Sample.literalEvents (inr Sample.bareRedirect) 99200000)
    Sample.bareRedirect.
Proof. repeat split. Qed.

Lemma no_location_stops_witness :
  ∃ s', visit (H := Sample.platform Sample.bareServer) 1
          (Sample.request Sample.example_com 2) newState = (Done tt, s')
        ∧ Log (w s')
          = [ "Connected to 93.184.216.34:80" +:+ nl;
              "HTTP/1.1 301 Moved Permanently"; "Server: x";
              "DNS lookup: 0ms"; "TCP connection: 26ms"; "TLS handshake: 0ms";
              "Server processing: 55ms"; "Content transfer: 3ms";
              nl +:+ "Total: 85ms" ]
        ∧ redirectsFollowed (w s') = 0
        ∧ roundTrips s' = 1%nat.
Proof.
  destruct (no_location_stops (H := Sample.platform Sample.bareServer) 0
              _ _ _ _ _ _ bare_completes eq_refl eq_refl eq_refl)
    as (s' & Hv & Hlog & _ & Hcnt & Hrt & _).
  exists s'. repeat split; [exact Hv | rewrite Hlog; reflexivity | exact Hcnt | exact Hrt].
Defined.

(** The looping server redirects whatever it is asked. *)
Lemma loop_always (target : url.URL) (limit : Z) :
  alwaysRedirects (H := Sample.platform Sample.loopServer)
    (Sample.request target limit).
Proof.
  intros u s.
  exists (Sample.wire u).
  exists (if decide (url.Scheme u = "https") then Sample.secure u else Sample.plain).
  exists (mkExchange Sample.literalEvents (inr Sample.movedResponse) 99200000).
  exists Sample.movedResponse.
  exists (url.mkURL (url.Scheme u) (url.Host u) "/next").
  repeat split.
  unfold newTransport. simpl. destruct (decide (url.Scheme u = "https")); reflexivity.
Qed.

Lemma redirect_budget_witness :
  (∃ s', Trace (H := Sample.platform Sample.loopServer) 3
           (Sample.request Sample.example_com 2)
         = (Panicked (MaximumRedirects 2), s') ∧ roundTrips s' = 3%nat)
  ∧ (∃ s', Trace (H := Sample.platform Sample.loopServer) 1
             (Sample.request Sample.example_com 0)
           = (Panicked (MaximumRedirects 0), s') ∧ roundTrips s' = 1%nat).
Proof.
  split.
  - destruct (redirect_budget (H := Sample.platform Sample.loopServer)
                (Sample.request Sample.example_com 2) newState
                eq_refl (loop_always _ _) eq_refl) as [H2 _].
    destruct (H2 eq_refl 3%nat (le_n 3)) as (s' & Hv & Hrt & _).
    exists s'. split; [exact Hv | exact Hrt].
  - destruct (redirect_budget (H := Sample.platform Sample.loopServer)
                (Sample.request Sample.example_com 0) newState
                eq_refl (loop_always _ _) eq_refl) as [_ H0].
    destruct (H0 eq_refl 1%nat (le_n 1)) as (s' & Hv & Hrt & _).
    exists s'. split; [exact Hv | exact Hrt].
Defined.

End ReportRuns.

(** ** The phase durations *)

Section Durations.
Context `{Platform}.

Lemma Sub_exact (a b : time.Time) :
  0 ≤ a - b ≤ time.maxDuration → time.Sub a b = a - b.
Proof. unfold time.Sub, time.minDuration, time.maxDuration. lia. Qed.

(** For instants in order, the number printed is the floor of the
    difference in milliseconds. *)
Lemma ms_floor (a b : time.Time) :
  0 ≤ a - b ≤ time.maxDuration → ms (time.Sub a b) = (a - b) `div` 1000000.
Proof.
  intros Hab. rewrite (Sub_exact _ _ Hab). unfold ms, time.Millisecond.
  apply Z.quot_div_nonneg; lia.
Qed.


Lemma chronological_floors (t : Marks) (t5 : time.Time) :
  chronological t t5 →
  dnsLookup t = (t1 t - dnsStart t) `div` 1000000
  ∧ tcpConnection t = (t2 t - t1 t) `div` 1000000
  ∧ tlsHandshake t = (t3 t - t2 t) `div` 1000000
  ∧ serverProcessing t = (t4 t - t3 t) `div` 1000000
  ∧ contentTransfer t t5 = (t5 - t4 t) `div` 1000000
  ∧ total t t5 = (t5 - dnsStart t) `div` 1000000.
Proof.
  intros (H0 & H1 & H2 & H3 & H4 & H5).
  unfold dnsLookup, tcpConnection, tlsHandshake, serverProcessing,
    contentTransfer, total.
  repeat split; apply ms_floor; lia.
Qed.

(** C4.  For every completed hop whose captured instants are in
    chronological order, the five phase lines and the total line print the
    differences of the instants floored to whole milliseconds, followed by
    "ms": DNS lookup = dnsDone - dnsStart (after the backfill), TCP
    connection = connectDone - dnsDone, TLS handshake = gotConnection -
    connectDone, Server processing = firstByte - gotConnection, Content
    transfer = bodyRead - firstByte, Total = bodyRead - dnsStart. *)
Theorem phase_durations fuel r s req tr ex resp :
  completes r s req tr ex resp →
  chronological (stamps (events ex)) (bodyRead ex) →
  let t := stamps (events ex) in
  let t5 := bodyRead ex in
  ∃ block,
    visit (S fuel) r s
    = (redirect r req resp ≫= continue fuel)
        (logged
           (block ++
            [ "DNS lookup: " +:+ pretty ((t1 t - dnsStart t) `div` 1000000) +:+ "ms";
              "TCP connection: " +:+ pretty ((t2 t - t1 t) `div` 1000000) +:+ "ms";
              "TLS handshake: " +:+ pretty ((t3 t - t2 t) `div` 1000000) +:+ "ms";
              "Server processing: " +:+ pretty ((t4 t - t3 t) `div` 1000000) +:+ "ms";
              "Content transfer: " +:+ pretty ((t5 - t4 t) `div` 1000000) +:+ "ms";
              nl +:+ "Total: " +:+ pretty ((t5 - dnsStart t) `div` 1000000) +:+ "ms" ])
           (tick s))
    ∧ dnsStart t = (if time.IsZero (t0 t) then t1 t else t0 t).
Proof.
  intros Hc Hchr t t5. subst t t5.
  destruct (chronological_floors _ _ Hchr) as (E1 & E2 & E3 & E4 & E5 & E6).
  eexists. split; [|reflexivity].
  rewrite visit_S, bind_run, (attempt_completes _ _ _ _ _ _ Hc).
  unfold hopReport, timingLines.
  rewrite E1, E2, E3, E4, E5, E6, !app_assoc. reflexivity.
Qed.

(** C5.  For every completed hop whose captured instants are in
    chronological order, the total printed is at least the sum of the five
    phases printed and exceeds it by at most 4 (each phase is floored on
    its own, and the five intervals add up to the total interval). *)
Theorem total_bounds_phases fuel r s req tr ex resp :
  completes r s req tr ex resp →
  chronological (stamps (events ex)) (bodyRead ex) →
  ∃ block dns tcp tlsh server transfer tot,
    visit (S fuel) r s
    = (redirect r req resp ≫= continue fuel)
        (logged
           (block ++
            [ "DNS lookup: " +:+ pretty dns +:+ "ms";
              "TCP connection: " +:+ pretty tcp +:+ "ms";
              "TLS handshake: " +:+ pretty tlsh +:+ "ms";
              "Server processing: " +:+ pretty server +:+ "ms";
              "Content transfer: " +:+ pretty transfer +:+ "ms";
              nl +:+ "Total: " +:+ pretty tot +:+ "ms" ])
           (tick s))
    ∧ dns + tcp + tlsh + server + transfer ≤ tot
    ∧ tot ≤ dns + tcp + tlsh + server + transfer + 4
    ∧ (t1 (stamps (events ex)) - dnsStart (stamps (events ex)))
      + (t2 (stamps (events ex)) - t1 (stamps (events ex)))
      + (t3 (stamps (events ex)) - t2 (stamps (events ex)))
      + (t4 (stamps (events ex)) - t3 (stamps (events ex)))
      + (bodyRead ex - t4 (stamps (events ex)))
      = bodyRead ex - dnsStart (stamps (events ex)).
Proof.
  intros Hc Hchr.
  destruct (chronological_floors _ _ Hchr) as (E1 & E2 & E3 & E4 & E5 & E6).
  destruct Hchr as (H0 & H1 & H2 & H3 & H4 & H5).
  do 7 eexists. split; [|split; [|split]].
  - rewrite visit_S, bind_run, (attempt_completes _ _ _ _ _ _ Hc).
    unfold hopReport, timingLines. rewrite !app_assoc. reflexivity.
  - rewrite E1, E2, E3, E4, E5, E6. Z.div_mod_to_equations. lia.
  - rewrite E1, E2, E3, E4, E5, E6. Z.div_mod_to_equations. lia.
  - lia.
Qed.

End Durations.

(** ** Attempts that skip the DNS resolution *)

Section Literal.
Context `{Platform}.









End Literal.

(** ** Strings: indices and slices *)

Section Strings.
Import strings.














Lemma length_app a b :
  String.length (a +:+ b) = (String.length a + String.length b)%nat.
Proof. induction a as [|x a IH]; simpl; [done|]. by rewrite IH. Qed.








Example SplitHostPort_results :
  net.SplitHostPort "example.com:8443" = Some ("example.com", "8443")
  ∧ net.SplitHostPort "example.com" = None
  ∧ net.SplitHostPort "[::1]:8443" = Some ("::1", "8443")
  ∧ net.SplitHostPort "[::1]" = None
  ∧ net.SplitHostPort "::1" = None
  ∧ net.SplitHostPort "example.com:" = Some ("example.com", "").
Proof. repeat split. Qed.




End Strings.

(** ** The transport and the wire request *)

Section Wire.
Context `{Platform}.


Lemma last_cons_default {A} (x d : A) (l : list A) :
  default d (last (x :: l)) = default x (last l).
Proof.
  revert x d. induction l as [|y l IH]; intros x d; [done|].
  change (last (x :: y :: l)) with (last (y :: l)). by rewrite !IH.
Qed.

(** What the loop of [cook] does to a request. *)
Lemma cook_loop (headers : list string) (req0 : http.Request) :
  let req := fold_left cookHeader headers req0 in
  http.Method req = http.Method req0
  ∧ http.URL req = http.URL req0
  ∧ http.Body req = http.Body req0
  ∧ http.Host req = default (http.Host req0) (last (hostValues headers))
  ∧ ∀ key, http.Header req !! key
           = match addedValues key headers with
             | [] => http.Header req0 !! key
             | vs => Some (default [] (http.Header req0 !! key) ++ vs)
             end.
Proof.
  revert req0. induction headers as [|h headers IH]; intros req0; simpl.
  - repeat split.
  - destruct (IH (cookHeader req0 h)) as (IM & IU & IB & IH' & IK).
    unfold cookHeader in *. destruct (headerKeyValue h) as [k v].
    destruct (EqualFold k "host"); simpl in *.
    + repeat split; try done. by rewrite IH', last_cons_default.
    + repeat split; try done. intros key. rewrite IK. unfold Header_Add.
      destruct (decide (CanonicalMIMEHeaderKey k = key)) as [<-|Hne].
      * rewrite lookup_insert_eq. simpl.
        destruct (addedValues _ headers); [done|]. by rewrite <- app_assoc.
      * by rewrite lookup_insert_ne.
Qed.

(** C8.  Whenever the wire request can be created, [cook] builds it so
    that the headers whose key folds to "host" set the Host of the
    connection, the last one winning, and are not added as headers; every
    other header is added under its canonical key, in the order given and
    without replacing earlier values; the body is a reader over the body
    string, which for the empty string is an empty reader and not a nil
    one. *)
Theorem cook_request r s req0 :
  http_NewRequest (HTTPMethod r) (URL r) (createBody (PostBody r)) = inr req0 →
  ∃ req, cook r s = (Done req, s)
    ∧ http.Host req = default (http.Host req0) (last (hostValues (HTTPHeaders r)))
    ∧ (∀ key, http.Header req !! key
              = match addedValues key (HTTPHeaders r) with
                | [] => None
                | vs => Some vs
                end)
    ∧ http.Body req = io.StringsReader (PostBody r)
    ∧ createBody "" = io.StringsReader ""
    ∧ createBody "" ≠ io.NilReader.
Proof.
  intros Hnew. unfold cook. rewrite Hnew. simpl.
  eexists. split; [reflexivity|].
  destruct (cook_loop (HTTPHeaders r) req0) as (_ & _ & IB & IH' & IK).
  unfold http_NewRequest in Hnew.
  destruct (NewRequestError _ _); [done|]. injection Hnew as <-.
  simpl in *. split; [done|]. split; [|done].
  intros key. rewrite IK, lookup_empty. simpl. by destruct (addedValues _ _).
Qed.

End Wire.

(** ** Every way an attempt can end *)

Section Outcomes.
Context `{Platform}.

Lemma cook_run r s :
  cook r s
  = match http_NewRequest (HTTPMethod r) (URL r) (createBody (PostBody r)) with
    | inl err => (Panicked (UnableToCreateRequest err), s)
    | inr req0 => (Done (fold_left cookHeader (HTTPHeaders r) req0), s)
    end.
Proof. unfold cook. rewrite bind_run. by destruct (http_NewRequest _ _ _). Qed.

Lemma newTransport_cases r req s :
  (∃ tr, newTransport r req s = (Done tr, s))
  ∨ (∃ msg, newTransport r req s = (Panicked (HelperFatal msg), s))
  ∨ (∃ err, newTransport r req s = (Panicked (FailedToPrepareHTTP2 err), s)).
Proof.
  unfold newTransport. destruct (decide _); [|left; by eexists].
  rewrite bind_run.
  destruct (readClientCert (ClientCertFile r)) as [msg|certs]; simpl.
  - right. left. by eexists.
  - destruct (ConfigureTransport _) as [err|].
    + right. right. by eexists.
    + left. by eexists.
Qed.

Lemma hook_run e t s :
  refused e = false → hook e t s = (Done (stamp t e), logged (connected [e]) s).
Proof.
  destruct e as [now|now|now|addr [err|] now|now|now]; simpl; try discriminate;
    intros _; rewrite ?logged_nil; try reflexivity.
  by destruct (time.IsZero (t1 t)).
Qed.

Lemma connected_cons e evs : connected (e :: evs) = connected [e] ++ connected evs.
Proof. by destruct e as [| | |addr [err|] now| |]. Qed.

(** A refused connection aborts the attempt with what the hooks had
    logged until then. *)
Lemma hooks_refused evs t s :
  forallb (λ e, negb (refused e)) evs = false →
  ∃ addr err, foldM hook evs t s
              = (Panicked (UnableToConnect addr err), logged (connected (accepted evs)) s).
Proof.
  revert t s. induction evs as [|e evs IH]; intros t s Hacc; simpl in *; [done|].
  destruct (refused e) eqn:Er; simpl in *.
  - destruct e as [| | |addr [err|] now| |]; try discriminate.
    exists addr, err. by rewrite bind_run, logged_nil.
  - rewrite bind_run, (hook_run _ _ _ Er).
    destruct (IH (stamp t e) (logged (connected [e]) s) Hacc) as (addr & err & ->).
    exists addr, err. by rewrite logged_logged, <- connected_cons.
Qed.

(** An attempt aborts before its round trip, or on a refused connection,
    or on a failed read, or it completes. *)
Lemma attempt_cases r s :
  (∃ f, attempt r s = (Panicked f, s) ∧ exchangeOf r s = None
        ∧ ∀ n, f ≠ MaximumRedirects n)
  ∨ ∃ req ex, exchangeOf r s = Some (req, ex) ∧
      ((∃ addr err,
          attempt r s = (Panicked (UnableToConnect addr err),
                         logged (connected (accepted (events ex))) (tick s)))
       ∨ (∃ err, result ex = inl err
                 ∧ attempt r s = (Panicked (FailedToReadResponse err),
                                  logged (connected (events ex)) (tick s)))
       ∨ (∃ tr resp, completes r s req tr ex resp)).
Proof.
  unfold exchangeOf. pose proof (cook_run r s) as Hcook.
  destruct (http_NewRequest _ _ _) as [err|req0] eqn:Enew.
  - left. exists (UnableToCreateRequest err). rewrite Hcook.
    unfold attempt. rewrite (bind_Panicked _ _ _ _ _ Hcook). done.
  - rewrite Hcook. set (req := fold_left cookHeader (HTTPHeaders r) req0) in *.
    destruct (newTransport_cases r req s) as [[tr Htr]|[[msg Htr]|[err Htr]]].
    + right. rewrite Htr. exists req, (RoundTrip (roundTrips s) tr req).
      split; [done|].
      set (ex := RoundTrip (roundTrips s) tr req).
      assert (Hdo : clientDo tr req s = (Done ex, tick s)) by reflexivity.
      destruct (forallb (λ e, negb (refused e)) (events ex)) eqn:Eacc.
      * destruct (result ex) as [err|resp] eqn:Eres.
        -- right. left. exists err. split; [done|].
           unfold attempt.
           rewrite (bind_Done _ _ _ _ _ Hcook), (bind_Done _ _ _ _ _ Htr),
             (bind_Done _ _ _ _ _ Hdo).
           rewrite bind_run, (hooks_run _ _ _ Eacc), bind_run, Eres. reflexivity.
        -- right. right. exists tr, resp. repeat split; done.
      * left. destruct (hooks_refused _ zeroMarks (tick s) Eacc) as (addr & err & E).
        exists addr, err. unfold attempt.
        rewrite (bind_Done _ _ _ _ _ Hcook), (bind_Done _ _ _ _ _ Htr),
          (bind_Done _ _ _ _ _ Hdo).
        by rewrite (bind_Panicked _ _ _ _ _ E).
    + left. exists (HelperFatal msg). rewrite Htr. split; [|done].
      unfold attempt. rewrite (bind_Done _ _ _ _ _ Hcook).
      by rewrite (bind_Panicked _ _ _ _ _ Htr).
    + left. exists (FailedToPrepareHTTP2 err). rewrite Htr. split; [|done].
      unfold attempt. rewrite (bind_Done _ _ _ _ _ Hcook).
      by rewrite (bind_Panicked _ _ _ _ _ Htr).
Qed.

(** What one attempt does to the counter. *)
Lemma attempt_counter r s res s1 :
  attempt r s = (res, s1) →
  int.min ≤ redirectsFollowed (w s) < int.max →
  match res with
  | Done (Some r') =>
      redirectsFollowed (w s1) = redirectsFollowed (w s) + 1
      ∧ redirectsFollowed (w s1) ≤ MaxRedirects r
      ∧ MaxRedirects r' = MaxRedirects r
  | Panicked (MaximumRedirects _) =>
      redirectsFollowed (w s1) = redirectsFollowed (w s) + 1
  | _ => redirectsFollowed (w s1) = redirectsFollowed (w s)
  end.
Proof.
  intros Hatt Hc.
  destruct (attempt_cases r s)
    as [(f & E & _ & Hf)|(req & ex & _ & [(addr & err & E)|[(err & _ & E)|(tr & resp & Hcomp)]])].
  - rewrite E in Hatt. injection Hatt as <- <-.
    destruct f; try done. by destruct (Hf limit).
  - rewrite E in Hatt. by injection Hatt as <- <-.
  - rewrite E in Hatt. by injection Hatt as <- <-.
  - rewrite (attempt_completes _ _ _ _ _ _ Hcomp), redirect_run in Hatt.
    destruct (FollowRedirects r && isRedirect resp);
      [|by injection Hatt as <- <-].
    destruct (Response_Location req resp) as [|err|loc];
      try by injection Hatt as <- <-.
    simpl in Hatt. rewrite incr_small in Hatt by done.
    destruct (MaxRedirects r <? redirectsFollowed (w s) + 1) eqn:Elim;
      injection Hatt as <- <-; simpl; rewrite incr_small by done; [done|].
    apply Z.ltb_ge in Elim. done.
Qed.

(** C9 (as amended).  The counter starts at 0 and is never decremented.
    It is incremented once for every redirect response with a resolvable
    Location, before the limit is checked: at every hop boundary it equals
    the number of redirects followed, except on the abort for too many
    redirects, where it is one more. *)
Theorem counter_counts fuel r s res s' :
  visit fuel r s = (res, s') →
  int.min ≤ redirectsFollowed (w s) < int.max →
  MaxRedirects r < int.max →
  redirectsFollowed (w newState) = 0
  ∧ redirectsFollowed (w s) ≤ redirectsFollowed (w s')
  ∧ redirectsFollowed (w s')
    = redirectsFollowed (w s) + Z.of_nat (followed fuel r s)
      + match res with
        | Panicked (MaximumRedirects _) => 1
        | _ => 0
        end.
Proof.
  intros Hv Hc HM. split; [reflexivity|].
  revert r s Hv Hc HM. induction fuel as [|fuel IH]; intros r s Hv Hc HM.
  - injection Hv as <- <-. simpl. lia.
  - rewrite visit_S, bind_run in Hv. simpl.
    destruct (attempt r s) as [res1 s1] eqn:Hatt.
    pose proof (attempt_counter _ _ _ _ Hatt Hc) as Hcnt.
    destruct res1 as [[r'|]|f|].
    + destruct Hcnt as (Hs1 & Hle & HM').
      destruct (IH r' s1 Hv) as [IH1 IH2]; [lia|lia|].
      rewrite IH2. lia.
    + injection Hv as <- <-. lia.
    + injection Hv as <- <-. destruct f; lia.
    + injection Hv as <- <-. lia.
Qed.

(** The chain is bounded: with more fuel than the redirects the budget
    still allows, [visit] returns or panics. *)
Lemma visit_terminates fuel r s :
  int.min ≤ redirectsFollowed (w s) < int.max →
  MaxRedirects r < int.max →
  (Z.to_nat (MaxRedirects r - redirectsFollowed (w s)) < fuel)%nat →
  (visit fuel r s).1 ≠ OutOfFuel.
Proof.
  revert r s. induction fuel as [|fuel IH]; intros r s Hc HM Hfuel; [lia|].
  rewrite visit_S, bind_run.
  destruct (attempt r s) as [res1 s1] eqn:Hatt.
  pose proof (attempt_counter _ _ _ _ Hatt Hc) as Hcnt.
  destruct res1 as [[r'|]|f|]; simpl; try done.
  - destruct Hcnt as (Hs1 & Hle & HM'). apply IH; lia.
  - destruct (attempt_cases r s)
      as [(f & E & _)|(req & ex & _ & [(a & e & E)|[(e & _ & E)|(tr & resp & Hcomp)]])];
      try (rewrite Hatt in E; discriminate).
    rewrite (attempt_completes _ _ _ _ _ _ Hcomp), redirect_run in Hatt.
    destruct (FollowRedirects r && isRedirect resp); [|discriminate].
    destruct (Response_Location req resp); try discriminate.
    destruct (MaxRedirects r <? _); discriminate.
Qed.


Lemma attempt_extends r s res s1 :
  attempt r s = (res, s1) → Log (w s) `prefix_of` Log (w s1).
Proof.
  intros Hatt.
  destruct (attempt_cases r s)
    as [(f' & E & _ & _)|(req & ex & _ & [(addr & err & E)|[(err & Hres & E)|(tr & resp & Hcomp)]])].
  - rewrite E in Hatt. by injection Hatt as <- <-.
  - rewrite E in Hatt. injection Hatt as <- <-. by eexists.
  - rewrite E in Hatt. injection Hatt as <- <-. by eexists.
  - rewrite (attempt_completes _ _ _ _ _ _ Hcomp), redirect_run in Hatt.
    destruct (FollowRedirects r && isRedirect resp);
      [|injection Hatt as <- <-; by eexists].
    destruct (Response_Location req resp) as [|err|loc];
      try (injection Hatt as <- <-; by eexists).
    destruct (MaxRedirects r <? _); injection Hatt as <- <-; simpl.
    + by eexists.
    + rewrite <- app_assoc. by eexists.
Qed.


End Outcomes.

(** ** Durations, server names and counters on concrete runs *)

Section Runs.

Lemma ok_chronological :
  chronological (stamps Sample.namedEvents) 99200000.
Proof. repeat split; by vm_compute. Qed.

Lemma phase_durations_witness :
  completes (H := Sample.platform Sample.okServer)
    (Sample.request Sample.example_com 2) newState
    (Sample.wire Sample.example_com) Sample.plain
    (mkExchange Sample.namedEvents (inr Sample.okResponse) 99200000)
    Sample.okResponse
  ∧ chronological (stamps Sample.namedEvents) 99200000
  ∧ ∃ block,
      Log (w (visit (H := Sample.platform Sample.okServer) 1
                (Sample.request Sample.example_com 2) newState).2)
      = block ++ [ "DNS lookup: 12ms"; "TCP connection: 26ms"; "TLS handshake: 0ms";
                   "Server processing: 55ms"; "Content transfer: 3ms";
                   nl +:+ "Total: 98ms" ].
Proof.
  split; [exact ok_completes|]. split; [exact ok_chronological|].
  destruct (phase_durations (H := Sample.platform Sample.okServer) 0
              _ _ _ _ _ _ ok_completes ok_chronological) as (block & -> & _).
  exists block. reflexivity.
Defined.

Lemma total_bounds_phases_witness :
  completes (H := Sample.platform Sample.okServer)
    (Sample.request Sample.example_com 2) newState
    (Sample.wire Sample.example_com) Sample.plain
    (mkExchange Sample.namedEvents (inr Sample.okResponse) 99200000)
    Sample.okResponse
  ∧ chronological (stamps Sample.namedEvents) 99200000
  ∧ 12 + 26 + 0 + 55 + 3 ≤ 98 ≤ 12 + 26 + 0 + 55 + 3 + 4
  ∧ ∃ block dns tcp tlsh server transfer tot,
      Log (w (visit (H := Sample.platform Sample.okServer) 1
                (Sample.request Sample.example_com 2) newState).2)
      = block ++ [ "DNS lookup: " +:+ pretty dns +:+ "ms";
                   "TCP connection: " +:+ pretty tcp +:+ "ms";
                   "TLS handshake: " +:+ pretty tlsh +:+ "ms";
                   "Server processing: " +:+ pretty server +:+ "ms";
                   "Content transfer: " +:+ pretty transfer +:+ "ms";
                   nl +:+ "Total: " +:+ pretty tot +:+ "ms" ]
      ∧ dns + tcp + tlsh + server + transfer ≤ tot
      ∧ tot ≤ dns + tcp + tlsh + server + transfer + 4.
Proof.
  split; [exact ok_completes|]. split; [exact ok_chronological|]. split; [lia|].
  destruct (total_bounds_phases (H := Sample.platform Sample.okServer) 0
              _ _ _ _ _ _ ok_completes ok_chronological)
    as (block & dns & tcp & tlsh & server & transfer & tot & -> & Hlo & Hhi & _).
  exists block, dns, tcp, tlsh, server, transfer, tot.
  split; [reflexivity|]. split; [exact Hlo | exact Hhi].
Defined.




Lemma cook_request_witness :
  ∃ req, cook (H := Sample.platform Sample.okServer) Sample.decorated newState
         = (Done req, newState)
    ∧ http.Host req = "b.example"
    ∧ http.Header req !! "X-Foo" = Some ["1"; "2"]
    ∧ http.Header req !! "Accept" = Some ["text/html"]
    ∧ http.Header req !! "Host" = None
    ∧ http.Header req !! "host" = None
    ∧ http.Body req = io.StringsReader "".
Proof.
  destruct (cook_request (H := Sample.platform Sample.okServer) Sample.decorated
              newState (Sample.wire Sample.example_com) eq_refl)
    as (req & Hcook & Hhost & Hhdr & Hbody & _).
  exists req. split; [exact Hcook|]. split; [exact Hhost|].
  rewrite !Hhdr. repeat split. exact Hbody.
Defined.

Lemma counter_counts_witness :
  redirectsFollowed
    (w (visit (H := Sample.platform Sample.loopServer) 3
          (Sample.request Sample.example_com 2) newState).2)
  = 0 + Z.of_nat 2 + 1.
Proof.
  destruct (counter_counts (H := Sample.platform Sample.loopServer) 3
              (Sample.request Sample.example_com 2) newState _ _
              (surjective_pairing _))
    as (_ & _ & E).
  - by vm_compute.
  - by vm_compute.
  - exact E.
Defined.

(** C9 as stated fails.  With [MaxRedirects = 0] the first redirect
    response aborts the trace: no redirect has been followed, and the
    counter is 1. *)
Lemma counter_counts_counterexample :
  (Trace (H := Sample.platform Sample.loopServer) 1
     (Sample.request Sample.example_com 0)).1 = Panicked (MaximumRedirects 0)
  ∧ roundTrips (Trace (H := Sample.platform Sample.loopServer) 1
                  (Sample.request Sample.example_com 0)).2 = 1%nat
  ∧ followed (H := Sample.platform Sample.loopServer) 1
      (Sample.request Sample.example_com 0) newState = 0%nat
  ∧ redirectsFollowed
      (w (Trace (H := Sample.platform Sample.loopServer) 1
            (Sample.request Sample.example_com 0)).2) = 1
  ∧ redirectsFollowed
      (w (Trace (H := Sample.platform Sample.loopServer) 1
            (Sample.request Sample.example_com 0)).2)
    ≠ Z.of_nat (followed (H := Sample.platform Sample.loopServer) 1
                  (Sample.request Sample.example_com 0) newState).
Proof. repeat split. by vm_compute. Qed.


End Runs.


(** ** The rendered Response *)

Section Rendering.

Lemma string_app_cons (x : ascii) (a b : string) :
  String x a +:+ b = String x (a +:+ b).
Proof. reflexivity. Qed.

Lemma string_app_assoc (a b c : string) : (a +:+ b) +:+ c = a +:+ (b +:+ c).
Proof.
  induction a as [|x a IH]; [reflexivity|]. by rewrite !string_app_cons, IH.
Qed.

Lemma string_app_nil_r (a : string) : a +:+ "" = a.
Proof. induction a as [|x a IH]; [reflexivity|]. by rewrite string_app_cons, IH. Qed.

Lemma rev_app_acc (s acc : string) : String.rev_app s acc = String.rev s +:+ acc.
Proof.
  unfold String.rev. revert acc. induction s as [|c s IH]; intros acc; simpl; [done|].
  rewrite (IH (String c acc)), (IH (String c "")), string_app_assoc. reflexivity.
Qed.

Lemma Join_snoc (log : list string) (x sep : string) :
  log ≠ [] → strings.Join (log ++ [x]) sep = strings.Join log sep +:+ sep +:+ x.
Proof.
  induction log as [|e log IH]; intros Hne; [done|].
  destruct log as [|e' log]; [reflexivity|].
  change (strings.Join ((e :: e' :: log) ++ [x]) sep)
    with (e +:+ sep +:+ strings.Join ((e' :: log) ++ [x]) sep).
  rewrite IH by done.
  change (strings.Join (e :: e' :: log) sep)
    with (e +:+ sep +:+ strings.Join (e' :: log) sep).
  by rewrite !string_app_assoc.
Qed.

(** An entry without newline is one line of the text. *)
Lemma splitLines_oneLine (cur e : string) :
  oneLine e → strings.splitLines cur e = [String.rev cur +:+ e].
Proof.
  unfold oneLine. revert cur. induction e as [|c e IH]; intros cur; simpl.
  - by rewrite string_app_nil_r.
  - destruct (Ascii.eqb c "010"); simpl; [done|]. intros He.
    rewrite (IH _ He). unfold String.rev at 1. simpl.
    rewrite rev_app_acc, string_app_assoc. reflexivity.
Qed.

(** A newline ends the current line. *)
Lemma splitLines_break (cur a b : string) :
  strings.splitLines cur (a +:+ nl +:+ b)
  = strings.splitLines cur a ++ strings.splitLines "" b.
Proof.
  revert cur. induction a as [|c a IH]; intros cur; simpl; [done|].
  destruct (Ascii.eqb c "010"); simpl; by rewrite IH.
Qed.

(** X1.  [report] followed by [String]: the line reported comes last in
    the rendered text, after a newline when the log was not empty; the
    entries and the counter that were there are kept. *)
Theorem report_then_String (line : string) (s : State) :
  Log (w (report line s).2) = Log (w s) ++ [line]
  ∧ redirectsFollowed (w (report line s).2) = redirectsFollowed (w s)
  ∧ Response_String (w (report line s).2)
    = match Log (w s) with
      | [] => line
      | _ => Response_String (w s) +:+ nl +:+ line
      end.
Proof.
  split; [reflexivity|]. split; [reflexivity|].
  unfold Response_String. simpl.
  destruct (Log (w s)) as [|e log] eqn:E; [reflexivity|].
  by apply Join_snoc.
Qed.

(** X2.  The lines of the rendered Response are the lines of its entries,
    entry after entry (one empty line for an empty log); when no entry
    holds a newline, splitting the rendered text at the newlines gives the
    log back. *)
Theorem rendered_entries (r : Response) :
  rendered r = match Log r with
               | [] => [""]
               | log => concat (map strings.Lines log)
               end
  ∧ (Log r ≠ [] → Forall oneLine (Log r) → rendered r = Log r).
Proof.
  assert (Hlines : ∀ log, log ≠ [] →
            strings.Lines (strings.Join log nl) = concat (map strings.Lines log)).
  { induction log as [|e log IH]; intros Hne; [done|].
    destruct log as [|e' log].
    - simpl. by rewrite app_nil_r.
    - change (strings.Join (e :: e' :: log) nl)
        with (e +:+ nl +:+ strings.Join (e' :: log) nl).
      unfold strings.Lines at 1. rewrite splitLines_break.
      fold (strings.Lines e). fold (strings.Lines (strings.Join (e' :: log) nl)).
      by rewrite IH. }
  unfold rendered, Response_String. split.
  - destruct (Log r) as [|e log]; [reflexivity|]. by apply Hlines.
  - intros Hne Hall. rewrite Hlines by done.
    induction Hall as [|e log He Hall IH]; [done|]. simpl.
    unfold strings.Lines at 1. rewrite (splitLines_oneLine _ _ He). simpl.
    f_equal. destruct log as [|e' log]; [done|]. by apply IH.
Qed.

Lemma rendered_entries_witness :
  [ "HTTP/1.1 200 OK"; "X-Foo: a,b" ] ≠ []
  ∧ Forall oneLine [ "HTTP/1.1 200 OK"; "X-Foo: a,b" ]
  ∧ rendered (mkResponse [ "HTTP/1.1 200 OK"; "X-Foo: a,b" ] 0)
    = [ "HTTP/1.1 200 OK"; "X-Foo: a,b" ].
Proof.
  assert (Hne : [ "HTTP/1.1 200 OK"; "X-Foo: a,b" ] ≠ @nil string) by discriminate.
  assert (Hall : Forall oneLine [ "HTTP/1.1 200 OK"; "X-Foo: a,b" ])
    by (repeat constructor).
  split; [exact Hne|]. split; [exact Hall|].
  exact (proj2 (rendered_entries (mkResponse [ "HTTP/1.1 200 OK"; "X-Foo: a,b" ] 0))
           Hne Hall).
Defined.

End Rendering.

(** ** The paths through one attempt *)

Section Paths.
Context `{Platform}.

Lemma hooks_first_refused pre addr err now post t s :
  forallb (λ e, negb (refused e)) pre = true →
  foldM hook (pre ++ httptrace.ConnectDone addr (Some err) now :: post) t s
  = (Panicked (UnableToConnect addr err), logged (connected pre) s).
Proof.
  revert t s. induction pre as [|e pre IH]; intros t s Hacc; simpl in *.
  - by rewrite bind_run, logged_nil.
  - apply andb_prop in Hacc as [He Hacc]. apply negb_true_iff in He.
    rewrite bind_run, (hook_run _ _ _ He), (IH _ _ Hacc), logged_logged.
    by rewrite <- connected_cons.
Qed.

Lemma attempt_refused r s req tr pre addr err now post :
  cook r s = (Done req, s) →
  newTransport r req s = (Done tr, s) →
  events (RoundTrip (roundTrips s) tr req)
    = pre ++ httptrace.ConnectDone addr (Some err) now :: post →
  forallb (λ e, negb (refused e)) pre = true →
  attempt r s = (Panicked (UnableToConnect addr err), logged (connected pre) (tick s)).
Proof.
  intros Hcook Htr Hev Hacc.
  assert (Hdo : clientDo tr req s = (Done (RoundTrip (roundTrips s) tr req), tick s))
    by reflexivity.
  unfold attempt.
  rewrite (bind_Done _ _ _ _ _ Hcook), (bind_Done _ _ _ _ _ Htr),
    (bind_Done _ _ _ _ _ Hdo).
  apply bind_Panicked. rewrite Hev. by apply hooks_first_refused.
Qed.

Lemma attempt_read_failure r s req tr err :
  cook r s = (Done req, s) →
  newTransport r req s = (Done tr, s) →
  forallb (λ e, negb (refused e)) (events (RoundTrip (roundTrips s) tr req)) = true →
  result (RoundTrip (roundTrips s) tr req) = inl err →
  attempt r s = (Panicked (FailedToReadResponse err),
                 logged (connected (events (RoundTrip (roundTrips s) tr req))) (tick s)).
Proof.
  intros Hcook Htr Hacc Hres.
  assert (Hdo : clientDo tr req s = (Done (RoundTrip (roundTrips s) tr req), tick s))
    by reflexivity.
  unfold attempt.
  rewrite (bind_Done _ _ _ _ _ Hcook), (bind_Done _ _ _ _ _ Htr),
    (bind_Done _ _ _ _ _ Hdo).
  rewrite bind_run, (hooks_run _ _ _ Hacc), bind_run, Hres. reflexivity.
Qed.

Lemma attempt_before_network r s req f :
  cook r s = (Done req, s) →
  newTransport r req s = (Panicked f, s) →
  attempt r s = (Panicked f, s).
Proof.
  intros Hcook Htr. unfold attempt.
  rewrite (bind_Done _ _ _ _ _ Hcook). by apply bind_Panicked.
Qed.

(** What one attempt does to the number of round trips. *)
Lemma attempt_roundTrips r s res s1 :
  attempt r s = (res, s1) →
  (roundTrips s ≤ roundTrips s1 ≤ S (roundTrips s))%nat
  ∧ (is_Some (exchangeOf r s) → roundTrips s1 = S (roundTrips s)).
Proof.
  intros Hatt.
  destruct (attempt_cases r s)
    as [(f & E & Hnone & _)|(req & ex & Hsome & [(a & e & E)|[(e & _ & E)|(tr & resp & Hc)]])].
  - rewrite E in Hatt. injection Hatt as <- <-. split; [lia|].
    rewrite Hnone. by intros [? ?].
  - rewrite E in Hatt. injection Hatt as <- <-. simpl. split; [lia|done].
  - rewrite E in Hatt. injection Hatt as <- <-. simpl. split; [lia|done].
  - rewrite (attempt_completes _ _ _ _ _ _ Hc), redirect_run in Hatt.
    destruct (FollowRedirects r && isRedirect resp);
      [|injection Hatt as <- <-; simpl; split; [lia|done]].
    destruct (Response_Location req resp) as [|err|loc];
      try (injection Hatt as <- <-; simpl; split; [lia|done]).
    destruct (MaxRedirects r <? _); injection Hatt as <- <-; simpl; split; (lia || done).
Qed.

(** A run only adds to the log and to the round trips. *)
Lemma visit_grows fuel r s res s' :
  visit fuel r s = (res, s') →
  Log (w s) `prefix_of` Log (w s') ∧ (roundTrips s ≤ roundTrips s')%nat.
Proof.
  revert r s. induction fuel as [|fuel IH]; intros r s Hv.
  - by injection Hv as <- <-.
  - rewrite visit_S, bind_run in Hv.
    destruct (attempt r s) as [res1 s1] eqn:Hatt.
    pose proof (attempt_extends _ _ _ _ Hatt) as Hext.
    destruct (attempt_roundTrips _ _ _ _ Hatt) as [Hrt _].
    destruct res1 as [[r'|]|f1|].
    + destruct (IH _ _ Hv) as [Hp Hr]. split; [by etrans|lia].
    + injection Hv as <- <-. split; [done|lia].
    + injection Hv as <- <-. split; [done|lia].
    + injection Hv as <- <-. split; [done|lia].
Qed.

(** X3.  The log is append-only across a whole run, whatever its outcome:
    every entry keeps its index and its text, and the number of round
    trips never goes down. *)
Theorem log_append_only fuel r s res s' :
  visit fuel r s = (res, s') →
  (∀ i entry, Log (w s) !! i = Some entry → Log (w s') !! i = Some entry)
  ∧ (length (Log (w s)) ≤ length (Log (w s')))%nat
  ∧ (roundTrips s ≤ roundTrips s')%nat.
Proof.
  intros Hv. destruct (visit_grows _ _ _ _ _ Hv) as [Hp Hr].
  split; [|split; [by apply prefix_length|done]].
  intros i entry Hi. by apply (prefix_lookup_Some _ _ _ _ Hi).
Qed.

(** X4.  When redirects are not to be followed, or the response is not a
    redirect, a completed hop is the last one: [visit] returns normally
    after this single round trip, the log has grown by the block of the
    hop and the counter is untouched. *)
Theorem visit_last_hop fuel r s req tr ex resp :
  completes r s req tr ex resp →
  FollowRedirects r && isRedirect resp = false →
  visit (S fuel) r s = (Done tt, logged (hopReport req ex resp) (tick s)).
Proof.
  intros Hc Hno.
  pose proof (attempt_completes _ _ _ _ _ _ Hc) as Hatt.
  rewrite redirect_run, Hno in Hatt.
  by rewrite visit_S, (bind_Done _ _ _ _ _ Hatt).
Qed.

(** X5.  A redirect within the budget is followed with the same request
    but for its URL, which becomes the resolved Location: [visit] goes on
    from the log of the hop plus the entry "\n", with the counter
    incremented and one round trip made. *)
Theorem visit_follows_redirect fuel r s req tr ex resp loc :
  completes r s req tr ex resp →
  FollowRedirects r = true →
  isRedirect resp = true →
  Response_Location req resp = http.Location loc →
  int.min ≤ redirectsFollowed (w s) < int.max →
  redirectsFollowed (w s) + 1 ≤ MaxRedirects r →
  visit (S fuel) r s
  = visit fuel (setURL loc r)
      (mkState (mkResponse (Log (w s) ++ hopReport req ex resp ++ [nl])
                           (redirectsFollowed (w s) + 1))
               (S (roundTrips s)))
  ∧ URL (setURL loc r) = loc
  ∧ setURL (URL r) (setURL loc r) = r.
Proof.
  intros Hc Hfollow Hred Hloc Hrange Hle.
  pose proof (attempt_completes _ _ _ _ _ _ Hc) as Hatt.
  rewrite redirect_run, Hfollow, Hred, Hloc in Hatt. simpl in Hatt.
  rewrite incr_small in Hatt by done.
  assert ((MaxRedirects r <? redirectsFollowed (w s) + 1) = false) as Hlim
    by (apply Z.ltb_ge; lia).
  rewrite Hlim in Hatt.
  split; [|split; [reflexivity | by destruct r]].
  rewrite visit_S, (bind_Done _ _ _ _ _ Hatt). simpl.
  unfold logged, bumped, tick. simpl.
  rewrite incr_small by done. by rewrite <- app_assoc.
Qed.


(** X7.  The first refused connection aborts the trace with its address
    and error: the hooks that would fire after it are not run, the log
    holds the connections made before it and nothing of the response. *)
Theorem visit_refused fuel r s req tr pre addr err now post :
  cook r s = (Done req, s) →
  newTransport r req s = (Done tr, s) →
  events (RoundTrip (roundTrips s) tr req)
    = pre ++ httptrace.ConnectDone addr (Some err) now :: post →
  forallb (λ e, negb (refused e)) pre = true →
  visit (S fuel) r s
  = (Panicked (UnableToConnect addr err), logged (connected pre) (tick s)).
Proof.
  intros Hcook Htr Hev Hacc.
  rewrite visit_S. apply bind_Panicked. by eapply attempt_refused.
Qed.

(** X8.  When [client.Do] returns an error the trace aborts with it; the
    connections the hooks have logged stay, no status line is written. *)
Theorem visit_read_failure fuel r s req tr err :
  cook r s = (Done req, s) →
  newTransport r req s = (Done tr, s) →
  forallb (λ e, negb (refused e)) (events (RoundTrip (roundTrips s) tr req)) = true →
  result (RoundTrip (roundTrips s) tr req) = inl err →
  visit (S fuel) r s
  = (Panicked (FailedToReadResponse err),
     logged (connected (events (RoundTrip (roundTrips s) tr req))) (tick s)).
Proof.
  intros Hcook Htr Hacc Hres.
  rewrite visit_S. apply bind_Panicked. by apply attempt_read_failure.
Qed.

End Paths.

(** ** Before and after the network *)

Section Network.
Context `{Platform}.

Lemma newTransport_plain r req s :
  url.Scheme (URL r) ≠ "https" → newTransport r req s = (Done baseTransport, s).
Proof. intros Hs. unfold newTransport. by destruct (decide _). Qed.

(** X9.  For any scheme but https the transport is the plain one, built
    without reading the client certificate or preparing HTTP/2: once the
    wire request exists, the round trip is always made (with no TLS
    configuration), whatever the certificate file and the outcome of the
    run. *)
Theorem plain_reaches_network fuel r s req res s' :
  url.Scheme (URL r) ≠ "https" →
  cook r s = (Done req, s) →
  visit (S fuel) r s = (res, s') →
  exchangeOf r s = Some (req, RoundTrip (roundTrips s) baseTransport req)
  ∧ http.TLSClientConfig baseTransport = None
  ∧ (S (roundTrips s) ≤ roundTrips s')%nat.
Proof.
  intros Hs Hcook Hv.
  assert (Hex : exchangeOf r s = Some (req, RoundTrip (roundTrips s) baseTransport req)).
  { unfold exchangeOf. by rewrite Hcook, (newTransport_plain _ _ _ Hs). }
  split; [done|]. split; [done|].
  rewrite visit_S, bind_run in Hv.
  destruct (attempt r s) as [res1 s1] eqn:Hatt.
  destruct (attempt_roundTrips _ _ _ _ Hatt) as [_ Hrt].
  assert (Hs1 : roundTrips s1 = S (roundTrips s)) by (apply Hrt; rewrite Hex; eauto).
  destruct res1 as [[r'|]|f|].
  - destruct (visit_grows _ _ _ _ _ Hv) as [_ Hle]. lia.
  - injection Hv as <- <-. lia.
  - injection Hv as <- <-. lia.
  - injection Hv as <- <-. lia.
Qed.

(** X10.  For https, the client certificate is read and HTTP/2 is
    prepared before any network activity: a failure of either aborts the
    trace with the Response untouched and no round trip made, and an
    unreadable certificate is reported before HTTP/2 is even prepared. *)
Theorem tls_preparation_failures fuel r s req :
  url.Scheme (URL r) = "https" →
  cook r s = (Done req, s) →
  (∀ msg, readClientCert (ClientCertFile r) = inl msg →
     visit (S fuel) r s = (Panicked (HelperFatal msg), s))
  ∧ (∀ certs err,
       readClientCert (ClientCertFile r) = inr certs →
       ConfigureTransport
         (http.mkTransport 100 (90 * time.Second) (10 * time.Second) (1 * time.Second)
            (Some (tls.mkConfig (serverName (http.Host req)) (Insecure r) certs)))
       = Some err →
       visit (S fuel) r s = (Panicked (FailedToPrepareHTTP2 err), s)).
Proof.
  intros Hs Hcook. split.
  - intros msg Hcert. rewrite visit_S. apply bind_Panicked.
    apply (attempt_before_network _ _ _ _ Hcook).
    unfold newTransport. destruct (decide _); [|done].
    by rewrite bind_run, Hcert.
  - intros certs err Hcert Hh2. rewrite visit_S. apply bind_Panicked.
    apply (attempt_before_network _ _ _ _ Hcook).
    unfold newTransport. destruct (decide _); [|done].
    rewrite bind_run, Hcert. simpl. by rewrite Hh2.
Qed.


Lemma followed_bound fuel r s :
  int.min ≤ redirectsFollowed (w s) < int.max →
  MaxRedirects r < int.max →
  (followed fuel r s ≤ Z.to_nat (MaxRedirects r - redirectsFollowed (w s)))%nat.
Proof.
  revert r s. induction fuel as [|fuel IH]; intros r s Hc HM; simpl; [lia|].
  destruct (attempt r s) as [res1 s1] eqn:Hatt.
  pose proof (attempt_counter _ _ _ _ Hatt Hc) as Hcnt.
  destruct res1 as [[r'|]|f|]; try lia.
  destruct Hcnt as (Hs1 & Hle & HM').
  specialize (IH r' s1). rewrite HM', Hs1 in IH. lia.
Qed.

Lemma roundTrips_followed fuel r s res s' :
  visit fuel r s = (res, s') →
  (roundTrips s' ≤ roundTrips s + followed fuel r s + 1)%nat.
Proof.
  revert r s. induction fuel as [|fuel IH]; intros r s Hv.
  - injection Hv as <- <-. lia.
  - rewrite visit_S, bind_run in Hv. simpl.
    destruct (attempt r s) as [res1 s1] eqn:Hatt.
    destruct (attempt_roundTrips _ _ _ _ Hatt) as [Hrt _].
    destruct res1 as [[r'|]|f|].
    + specialize (IH _ _ Hv). lia.
    + injection Hv as <- <-. lia.
    + injection Hv as <- <-. lia.
    + injection Hv as <- <-. lia.
Qed.

(** X12.  The redirect counter bounds the chain: a run follows at most
    [MaxRedirects - redirectsFollowed] redirects (none when the counter is
    already past the limit), makes at most one round trip more than that,
    and with that many attempts plus one it has returned or panicked. *)
Theorem round_trips_bounded fuel r s res s' :
  visit fuel r s = (res, s') →
  int.min ≤ redirectsFollowed (w s) < int.max →
  MaxRedirects r < int.max →
  (followed fuel r s ≤ Z.to_nat (MaxRedirects r - redirectsFollowed (w s)))%nat
  ∧ (roundTrips s'
     ≤ roundTrips s + Z.to_nat (MaxRedirects r - redirectsFollowed (w s)) + 1)%nat
  ∧ ((Z.to_nat (MaxRedirects r - redirectsFollowed (w s)) < fuel)%nat →
     res ≠ OutOfFuel).
Proof.
  intros Hv Hc HM.
  pose proof (followed_bound fuel r s Hc HM) as Hf.
  pose proof (roundTrips_followed _ _ _ _ _ Hv) as Hr.
  split; [done|]. split; [lia|].
  intros Hfuel. pose proof (visit_terminates fuel r s Hc HM Hfuel) as Ht.
  by rewrite Hv in Ht.
Qed.

End Network.

(** ** The hooks on a host name *)

Section Named.
Context `{Platform}.





End Named.

(** ** The wire request across targets *)

Section Targets.
Context `{Platform}.


(** X16.  For https the server name of the TLS configuration follows the
    Host header of the caller, not the URL: with a Host header whose last
    value is [v], the server name is the host part of [v]. *)
Theorem sni_follows_host_header r s req tr v :
  url.Scheme (URL r) = "https" →
  cook r s = (Done req, s) →
  newTransport r req s = (Done tr, s) →
  last (hostValues (HTTPHeaders r)) = Some v →
  http.Host req = v
  ∧ tls.ServerName <$> http.TLSClientConfig tr = Some (serverName v).
Proof.
  intros Hs Hcook Htr Hlast.
  assert (Hhost : http.Host req = v).
  { rewrite cook_run in Hcook. destruct (http_NewRequest _ _ _) as [err|req0]; [done|].
    injection Hcook as <-.
    destruct (cook_loop (HTTPHeaders r) req0) as (_ & _ & _ & Hh & _).
    simpl in Hh. by rewrite Hh, Hlast. }
  split; [done|].
  unfold newTransport in Htr. destruct (decide _); [|done].
  rewrite bind_run in Htr.
  destruct (readClientCert (ClientCertFile r)); [done|]. simpl in Htr.
  destruct (ConfigureTransport _); [done|].
  injection Htr as <-. simpl. by rewrite Hhost.
Qed.

Lemma redirect_extends r req resp s1 res s2 :
  redirect r req resp s1 = (res, s2) → Log (w s1) `prefix_of` Log (w s2).
Proof.
  rewrite redirect_run.
  destruct (FollowRedirects r && isRedirect resp); [|by intros [= <- <-]].
  destruct (Response_Location req resp); try by intros [= <- <-].
  destruct (MaxRedirects r <? _); intros [= <- <-]; simpl; [done|by eexists].
Qed.

(** X17.  Every header of the response of a completed hop is in the final
    log of the run, whatever happens afterwards, as one line with its
    values joined by commas; the block of the hop has one line per header
    name. *)
Theorem headers_in_log fuel r s req tr ex resp k vs res s' :
  completes r s req tr ex resp →
  http.RespHeader resp !! k = Some vs →
  visit (S fuel) r s = (res, s') →
  (k +:+ ": " +:+ strings.Join vs ",") ∈ Log (w s')
  ∧ (∃ rest, Log (w s') = Log (w s) ++ hopReport req ex resp ++ rest)
  ∧ length (hopReport req ex resp)
    = (length (connected (events ex)) + 1 + size (http.RespHeader resp)
       + length (bodyLines (readResponseBody req resp)) + 6)%nat.
Proof.
  intros Hc Hk Hv.
  assert (Hext : ∃ rest, Log (w s') = Log (w s) ++ hopReport req ex resp ++ rest).
  { rewrite visit_S, bind_run, (attempt_completes _ _ _ _ _ _ Hc) in Hv.
    destruct (redirect r req resp _) as [res1 s2] eqn:Hred.
    apply redirect_extends in Hred as [rest1 Hrest1]. simpl in Hrest1.
    assert (Hp : Log (w s2) `prefix_of` Log (w s')).
    { destruct res1 as [[r'|]|f|].
      - by destruct (visit_grows _ _ _ _ _ Hv).
      - by injection Hv as <- <-.
      - by injection Hv as <- <-.
      - by injection Hv as <- <-. }
    destruct Hp as [rest2 Hrest2]. exists (rest1 ++ rest2).
    rewrite Hrest2, Hrest1, <- !app_assoc. reflexivity. }
  assert (Hin : (k +:+ ": " +:+ strings.Join vs ",") ∈ hopReport req ex resp).
  { unfold hopReport. apply elem_of_app. right. apply elem_of_app. right.
    apply elem_of_app. left.
    replace (k +:+ ": " +:+ strings.Join vs ",") with (headerLine resp k)
      by (unfold headerLine; by rewrite Hk).
    apply list_elem_of_fmap_2. rewrite sortHeaders_perm. unfold headerNames.
    apply list_elem_of_fmap. exists (k, vs). split; [done|].
    by apply elem_of_map_to_list. }
  split; [|split; [done|]].
  - destruct Hext as [rest ->]. apply elem_of_app. right. apply elem_of_app. by left.
  - unfold hopReport, timingLines, headerNames.
    rewrite !List.length_app, length_map, sortHeaders_perm, length_fmap, length_map_to_list.
    simpl. lia.
Qed.

End Targets.

(** ** The web layer *)

Section Serving.
Context `{Platform}.


End Serving.

(** ** More concrete runs *)

Section MoreRuns.

Lemma log_append_only_witness :
  Log (w (visit (H := Sample.platform Sample.okServer) 1
            (Sample.request Sample.example_com 2) Sample.midway).2) !! 0%nat
  = Some "earlier".
Proof.
  destruct (log_append_only (H := Sample.platform Sample.okServer) 1
              (Sample.request Sample.example_com 2) Sample.midway _ _
              (surjective_pairing _)) as (Hkeep & _).
  exact (Hkeep 0%nat "earlier" eq_refl).
Defined.

Lemma visit_last_hop_witness :
  (visit (H := Sample.platform Sample.okServer) 5
     (Sample.request Sample.example_com 2) newState).1 = Done tt
  ∧ roundTrips (visit (H := Sample.platform Sample.okServer) 5
                  (Sample.request Sample.example_com 2) newState).2 = 1%nat.
Proof.
  rewrite (visit_last_hop (H := Sample.platform Sample.okServer) 4
             _ _ _ _ _ _ ok_completes eq_refl).
  split; reflexivity.
Defined.

Lemma once_completes :
  completes (H := Sample.platform Sample.onceServer)
    (Sample.request Sample.example_com 2) newState
    (Sample.wire Sample.example_com) Sample.plain
    (mkExchange Sample.literalEvents (inr Sample.movedResponse) 99200000)
    Sample.movedResponse.
Proof. repeat split. Qed.

Lemma visit_follows_redirect_witness :
  visit (H := Sample.platform Sample.onceServer) 2
    (Sample.request Sample.example_com 2) newState
  = visit (H := Sample.platform Sample.onceServer) 1
      (Sample.request Sample.next_com 2)
      (mkState
         (mkResponse
            ([] ++ hopReport (H := Sample.platform Sample.onceServer)
                     (Sample.wire Sample.example_com)
                     (mkExchange Sample.literalEvents (inr Sample.movedResponse) 99200000)
                     Sample.movedResponse ++ [nl])
            (0 + 1))
         1)
  ∧ (visit (H := Sample.platform Sample.onceServer) 2
       (Sample.request Sample.example_com 2) newState).1 = Done tt.
Proof.
  destruct (visit_follows_redirect (H := Sample.platform Sample.onceServer) 1
              _ _ _ _ _ _ Sample.next_com once_completes eq_refl eq_refl eq_refl)
    as (Hv & _).
  - by vm_compute.
  - by vm_compute.
  - split; [exact Hv | reflexivity].
Defined.



Lemma visit_refused_witness :
  visit (H := Sample.platform Sample.refusingServer) 1
    (Sample.request Sample.example_com 2) newState
  = (Panicked (UnableToConnect "93.184.216.34:80" "connection refused"),
     mkState (mkResponse ["Connected to [2606:2800::1]:80" +:+ nl] 0) 1).
Proof.
  rewrite (visit_refused (H := Sample.platform Sample.refusingServer) 0
             (Sample.request Sample.example_com 2) newState
             (Sample.wire Sample.example_com) Sample.plain
             [ httptrace.DNSStart 1000000; httptrace.DNSDone 13500000;
               httptrace.ConnectStart 13600000;
               httptrace.ConnectDone "[2606:2800::1]:80" None 20000000;
               httptrace.ConnectStart 20100000 ]
             "93.184.216.34:80" "connection refused" 40100000
             [ httptrace.GotConn 40200000 ]
             eq_refl eq_refl eq_refl eq_refl).
  reflexivity.
Defined.

Lemma visit_read_failure_witness :
  visit (H := Sample.platform Sample.deadServer) 1
    (Sample.request Sample.example_com 2) newState
  = (Panicked (FailedToReadResponse "EOF"),
     mkState (mkResponse ["Connected to 93.184.216.34:80" +:+ nl] 0) 1).
Proof.
  rewrite (visit_read_failure (H := Sample.platform Sample.deadServer) 0
             (Sample.request Sample.example_com 2) newState
             (Sample.wire Sample.example_com) Sample.plain "EOF"
             eq_refl eq_refl eq_refl eq_refl).
  reflexivity.
Defined.

Lemma plain_reaches_network_witness :
  (1 ≤ roundTrips (visit (H := Sample.custom (inl "no such file") (Some "no h2")
                              (λ _ _, inl "bad location") Sample.okServer) 1
                     (Sample.request Sample.example_com 2) newState).2)%nat.
Proof.
  assert (Hs : url.Scheme (URL (Sample.request Sample.example_com 2)) ≠ "https")
    by discriminate.
  destruct (plain_reaches_network
              (H := Sample.custom (inl "no such file") (Some "no h2")
                      (λ _ _, inl "bad location") Sample.okServer) 0
              (Sample.request Sample.example_com 2) newState
              (Sample.wire Sample.example_com) _ _
              Hs eq_refl (surjective_pairing _))
    as (_ & _ & Hle).
  exact Hle.
Defined.

Lemma tls_preparation_failures_witness :
  visit (H := Sample.custom (inl "no such file") (Some "no h2")
                (λ _ _, inl "bad location") Sample.okServer) 1
    (Sample.request Sample.with_port 2) newState
  = (Panicked (HelperFatal "no such file"), newState)
  ∧ visit (H := Sample.custom (inr ["CERT"]) (Some "no h2")
                  (λ _ _, inl "bad location") Sample.okServer) 1
      (Sample.request Sample.with_port 2) newState
    = (Panicked (FailedToPrepareHTTP2 "no h2"), newState).
Proof.
  split.
  - destruct (tls_preparation_failures
                (H := Sample.custom (inl "no such file") (Some "no h2")
                        (λ _ _, inl "bad location") Sample.okServer) 0
                (Sample.request Sample.with_port 2) newState
                (Sample.wire Sample.with_port) eq_refl eq_refl) as [Hcert _].
    exact (Hcert "no such file" eq_refl).
  - destruct (tls_preparation_failures
                (H := Sample.custom (inr ["CERT"]) (Some "no h2")
                        (λ _ _, inl "bad location") Sample.okServer) 0
                (Sample.request Sample.with_port 2) newState
                (Sample.wire Sample.with_port) eq_refl eq_refl) as [_ Hh2].
    exact (Hh2 ["CERT"] "no h2" eq_refl eq_refl).
Defined.


Lemma round_trips_bounded_witness :
  (roundTrips (visit (H := Sample.platform Sample.loopServer) 7
                 (Sample.request Sample.example_com 2) newState).2 ≤ 0 + 2 + 1)%nat
  ∧ (visit (H := Sample.platform Sample.loopServer) 7
       (Sample.request Sample.example_com 2) newState).1 ≠ OutOfFuel.
Proof.
  destruct (round_trips_bounded (H := Sample.platform Sample.loopServer) 7
              (Sample.request Sample.example_com 2) newState _ _
              (surjective_pairing _)) as (_ & Hrt & Hterm).
  - by vm_compute.
  - by vm_compute.
  - split; [exact Hrt|]. apply Hterm. vm_compute. lia.
Defined.






Lemma sni_follows_host_header_witness :
  tls.ServerName <$> http.TLSClientConfig (Sample.overriddenTransport [])
  = Some "internal.example".
Proof.
  destruct (sni_follows_host_header (H := Sample.platform Sample.okServer)
              Sample.overridden newState Sample.overriddenWire
              (Sample.overriddenTransport []) "internal.example:9443"
              eq_refl eq_refl eq_refl eq_refl) as (_ & Hsni).
  exact Hsni.
Defined.

Lemma headers_in_log_witness :
  "X-Foo: a,b"
  ∈ Log (w (visit (H := Sample.platform Sample.okServer) 1
              (Sample.request Sample.example_com 2) newState).2).
Proof.
  destruct (headers_in_log (H := Sample.platform Sample.okServer) 0
              _ _ _ _ _ _ "X-Foo" ["a"; "b"] _ _
              ok_completes eq_refl (surjective_pairing _)) as (Hin & _).
  exact Hin.
Defined.

End MoreRuns.
